(** * Stratum mining proxy: the orchestration module [mining_proxy.py]

    A shallow embedding of the proxy's entry module: the command line
    record, the module-level log settings, [main] before and after its
    [yield], the three event handlers [on_shutdown], [on_connect] and
    [on_disconnect], the transport events that drive them, and the
    update check.  The collaborators the module calls
    ([mining_libs.worker_registry], [mining_libs.jobs],
    [mining_libs.stratum_listener]) are not part of the module; each of
    their operations is modelled from the specification and marked so. *)

From Stdlib Require Import Ascii String ZArith.
From stdpp Require Import base numbers option list strings gmap fin_maps.

Local Open Scope Z_scope.
Local Open Scope string_scope.

(** ** Python values and the builtins the module uses *)

Module Py.

(** The JSON-like values that travel through remote calls, log calls and
    the proxy setting. *)
#[warnings="-register-all"]
Inductive value : Type :=
| VNone
| VBool (b : bool)
| VInt (z : Z)
| VStr (s : string)
| VList (l : list value)
| VTuple (l : list value).

Inductive exn : Type :=
| ValueError (msg : string)
| TypeError (msg : string)
| IndexError (msg : string)
| RemoteError (msg : string)
| IOError (msg : string)
| CannotListenError (msg : string).

(** Truth value of a string: only the empty string is false. *)
Definition str_truthy (s : string) : bool :=
  match s with
  | EmptyString => false
  | String _ _ => true
  end.

(** Truth value of an optional string ([None] or [str]). *)
Definition opt_truthy (o : option string) : bool :=
  match o with
  | None => false
  | Some s => str_truthy s
  end.

Fixpoint str_contains (c : ascii) (s : string) : bool :=
  match s with
  | EmptyString => false
  | String a rest => if Ascii.eqb a c then true else str_contains c rest
  end.

(** [s.split(sep)] for a one-character separator: the result is never
    empty, and a string without the separator comes back whole. *)
Fixpoint split (sep : ascii) (s : string) : list string :=
  match s with
  | EmptyString => [EmptyString]
  | String a rest =>
      if Ascii.eqb a sep then EmptyString :: split sep rest
      else match split sep rest with
           | [] => [String a EmptyString]
           | h :: t => String a h :: t
           end
  end.

Definition is_space (c : ascii) : bool :=
  let n := nat_of_ascii c in
  (n =? 32)%nat || ((9 <=? n)%nat && (n <=? 13)%nat).

Definition digit_of (c : ascii) : option Z :=
  let n := nat_of_ascii c in
  if (48 <=? n)%nat && (n <=? 57)%nat then Some (Z.of_nat n - 48) else None.

Fixpoint lstrip (l : list ascii) : list ascii :=
  match l with
  | c :: rest => if is_space c then lstrip rest else l
  | [] => []
  end.

Definition strip (l : list ascii) : list ascii :=
  rev (lstrip (rev (lstrip l))).

Fixpoint digits (acc : Z) (l : list ascii) : option Z :=
  match l with
  | [] => Some acc
  | c :: rest =>
      match digit_of c with
      | Some d => digits (10 * acc + d) rest
      | None => None
      end
  end.

Definition unsigned (l : list ascii) : option Z :=
  match l with
  | [] => None
  | _ :: _ => digits 0 l
  end.

(** [int(s)] in base ten: surrounding white space, an optional sign and
    at least one decimal digit; anything else raises [ValueError]. *)
Definition int (s : string) : option Z :=
  match strip (list_ascii_of_string s) with
  | "-"%char :: rest => Z.opp <$> unsigned rest
  | "+"%char :: rest => unsigned rest
  | l => unsigned l
  end.

(** [v[:3]] followed by unpacking into exactly three names.  A list or
    tuple yields its first three items, a string its first three
    characters; fewer than three items is a [ValueError], a value that
    cannot be sliced a [TypeError]. *)
Definition unpack3 (v : value) : value * value * value + exn :=
  match v with
  | VList l | VTuple l =>
      match take 3 l with
      | [a; b; c] => inl (a, b, c)
      | _ => inr (ValueError "need more than 0 values to unpack")
      end
  | VStr s =>
      match take 3 (list_ascii_of_string s) with
      | [a; b; c] =>
          inl (VStr (String a EmptyString), VStr (String b EmptyString),
               VStr (String c EmptyString))
      | _ => inr (ValueError "need more than 0 values to unpack")
      end
  | _ => inr (TypeError "object has no attribute '__getitem__'")
  end.

Definition of_opt_str (o : option string) : value :=
  match o with
  | None => VNone
  | Some s => VStr s
  end.

End Py.

Import Py(value, VNone, VBool, VInt, VStr, VList, VTuple).

(** ** Command line *)

(** The namespace returned by [parse_args]; one field per [dest]. *)
Record Args : Type := {
  host : string;
  port : Z;
  stratum_host : string;
  stratum_port : Z;
  custom_stratum : option string;
  custom_user : option string;
  custom_password : option string;
  blocknotify_cmd : string;
  proxy : string;
  tor : bool;
  verbose : bool;
  quiet : bool;
  pid_file : option string;
  log_file : option string
}.

(** The defaults [parse_args] declares. *)
Definition default_args : Args := {|
  host := "stratum.bitcoin.cz";
  port := 3333;
  stratum_host := "0.0.0.0";
  stratum_port := 3333;
  custom_stratum := None;
  custom_user := None;
  custom_password := None;
  blocknotify_cmd := "";
  proxy := "";
  tor := false;
  verbose := false;
  quiet := false;
  pid_file := None;
  log_file := None
|}.

(** ** Data model of the collaborators *)

Record Job : Type := {
  job_id : string;
  prev_block_hash : string;
  coinbase_part1 : string;
  coinbase_part2 : string;
  merkle_branch : list string;
  block_version : string;
  bits : string;
  time : string;
  clean_jobs : bool
}.

(** A half-open interval [[start, end)] of extranonce2 values. *)
Definition Range : Type := (N * N)%type.

Record Worker : Type := {
  connection_id : N;
  presented_username : string;
  presented_password : string;
  authorized : bool;
  extranonce2_range : Range
}.

Record ShareSubmission : Type := {
  worker_id : N;
  share_job_id : string;
  extranonce2 : string;
  ntime : string;
  nonce : string
}.

(** The pair [(extranonce1, extranonce2_size)] exactly as it came out of
    the subscribe reply; the handler stores it without inspecting it. *)
Definition ExtranonceConfig : Type := (value * value)%type.

(** The handlers of this module that get hooked on the factory's events,
    each bound to the one [workers] and [job_registry] of the process. *)
Inductive Callback : Type :=
| CbOnConnect
| CbOnDisconnect.

Module Factory.
(** The [SocketTransportClientFactory] attributes the module touches. *)
Record t : Type := {
  main_host : string * Z;
  is_reconnecting : bool;
  on_connect : list Callback;
  on_disconnect : list Callback
}.
End Factory.

Record WorkerRegistry : Type := {
  workers_by_id : gmap N Worker;
  slice_width : N;
  next_start : N;
  free_ranges : list Range
}.

Record JobRegistry : Type := {
  extranonce : option ExtranonceConfig;
  current_job : option Job;
  cmd : string
}.

(** Class-level state of [stratum_listener]: what [StratumProxyService]
    was told, and the live [MiningSubscription]s by connection. *)
Record Listener : Type := {
  service_extranonce : option ExtranonceConfig;
  subscriptions : gset N
}.

Record World : Type := {
  args : Args;
  f : Factory.t;
  workers : WorkerRegistry;
  job_registry : JobRegistry;
  listener : Listener
}.

Definition with_f (g : Factory.t -> Factory.t) (w : World) : World :=
  {| args := args w; f := g (f w); workers := workers w;
     job_registry := job_registry w; listener := listener w |}.

Definition with_workers (g : WorkerRegistry -> WorkerRegistry) (w : World) : World :=
  {| args := args w; f := f w; workers := g (workers w);
     job_registry := job_registry w; listener := listener w |}.

Definition with_job_registry (g : JobRegistry -> JobRegistry) (w : World) : World :=
  {| args := args w; f := f w; workers := workers w;
     job_registry := g (job_registry w); listener := listener w |}.

Definition with_listener (g : Listener -> Listener) (w : World) : World :=
  {| args := args w; f := f w; workers := workers w;
     job_registry := job_registry w; listener := g (listener w) |}.

(** ** Effects *)

Inductive LogLevel : Type := INFO | WARNING.

(** What a miner is told about a share. *)
Inductive SubmitResult : Type :=
| Accepted
| Rejected (reason : string).

Inductive TransportEvent : Type := OnConnect | OnDisconnect.

(** Every call the module makes on something outside itself, in the
    order it makes it. *)
Inductive Effect : Type :=
| ELog (lvl : LogLevel) (fmt : string) (params : list value)
| EFileOpen (path : string)
| EWritePid (path : string) (pid : Z)
| EFileClose (path : string)
| ENewFactory (h : string) (p : Z) (debug : bool) (prx : value)
| ENewJobRegistry (c : string)
| EResetTimeout
| ENewWorkerRegistry
| EAddCallback (ev : TransportEvent) (cb : Callback)
| EAddShutdownTrigger
| ERpc (method : string) (params : list value)
| EClearAuthorizations
| EWorkersAuthorize (user : string) (password : option string)
| ESetExtranonce (extranonce1 extranonce2_size : value)
| EServiceSetExtranonce (extranonce1 extranonce2_size : value)
| EDisconnectAll
| ESetUpstreamFactory
| ESetCustomUser (user password : option string)
| EListenTCP (p : Z) (interface : string)
| ENotifyWorker (cid : N) (j : Job)
| EBlockNotify (hash : string)
| EShareReply (cid : N) (res : SubmitResult)
| EReconnect.

(** What a remote call comes back with: a result, or a failure delivered
    to the waiting generator as an exception. *)
Inductive RpcOutcome : Type :=
| RpcResult (v : value)
| RpcFailure (e : Py.exn).

(** ** A state, trace and exception monad for the handlers *)

Inductive Outcome (A : Type) : Type :=
| Returned (a : A)
| Raised (e : Py.exn).
Arguments Returned {A} a.
Arguments Raised {A} e.

Record Run (A : Type) : Type := MkRun {
  outcome : Outcome A;
  final : World;
  trace : list Effect
}.
Arguments MkRun {A} _ _ _.
Arguments outcome {A} _.
Arguments final {A} _.
Arguments trace {A} _.

Definition M (A : Type) : Type := World -> Run A.

#[global] Instance M_ret : MRet M := fun A a w => MkRun (Returned a) w [].

#[global] Instance M_bind : MBind M := fun A B k m w =>
  match m w with
  | MkRun (Returned a) w1 t1 =>
      let r := k a w1 in MkRun (outcome r) (final r) (t1 ++ trace r)%list
  | MkRun (Raised e) w1 t1 => MkRun (Raised e) w1 t1
  end.

Definition emit (e : Effect) : M unit := fun w => MkRun (Returned tt) w [e].
Definition gets {A : Type} (g : World -> A) : M A := fun w => MkRun (Returned (g w)) w [].
Definition modify (g : World -> World) : M unit := fun w => MkRun (Returned tt) (g w) [].
Definition raise {A : Type} (e : Py.exn) : M A := fun w => MkRun (Raised e) w [].

Definition log (lvl : LogLevel) (fmt : string) (params : list value) : M unit :=
  emit (ELog lvl fmt params).

(** [d.addCallback(cb, workers, job_registry)] on the deferred currently
    stored in [f.on_connect] or [f.on_disconnect]. *)
Definition add_callback (ev : TransportEvent) (cb : Callback) : M unit :=
  emit (EAddCallback ev cb) ;;
  modify (with_f (fun x =>
    match ev with
    | OnConnect =>
        {| Factory.main_host := Factory.main_host x;
           Factory.is_reconnecting := Factory.is_reconnecting x;
           Factory.on_connect := Factory.on_connect x ++ [cb];
           Factory.on_disconnect := Factory.on_disconnect x |}
    | OnDisconnect =>
        {| Factory.main_host := Factory.main_host x;
           Factory.is_reconnecting := Factory.is_reconnecting x;
           Factory.on_connect := Factory.on_connect x;
           Factory.on_disconnect := Factory.on_disconnect x ++ [cb] |}
    end)).

Definition set_is_reconnecting (b : bool) (x : Factory.t) : Factory.t :=
  {| Factory.main_host := Factory.main_host x;
     Factory.is_reconnecting := b;
     Factory.on_connect := Factory.on_connect x;
     Factory.on_disconnect := Factory.on_disconnect x |}.

(** Run [m]; an exception it raises ends it there and is not passed on
    (an unhandled error in a deferred is logged by the reactor). *)
Definition attempt {A : Type} (m : M A) : M unit := fun w =>
  let r := m w in MkRun (Returned tt) (final r) (trace r).

(** ** The collaborators' operations *)

Definition set_authorized (b : bool) (k : Worker) : Worker :=
  {| connection_id := connection_id k;
     presented_username := presented_username k;
     presented_password := presented_password k;
     authorized := b;
     extranonce2_range := extranonce2_range k |}.

Definition with_workers_by_id
    (g : gmap N Worker -> gmap N Worker) (r : WorkerRegistry) : WorkerRegistry :=
  {| workers_by_id := g (workers_by_id r);
     slice_width := slice_width r;
     next_start := next_start r;
     free_ranges := free_ranges r |}.

(** Modelled from the spec: [WorkerRegistry.clear_authorizations] of
    [mining_libs/worker_registry.py], which is not part of the module.
    It flips every worker's [authorized] flag to false and touches
    nothing else. *)
Definition clear_authorizations (r : WorkerRegistry) : WorkerRegistry :=
  with_workers_by_id (fmap (set_authorized false)) r.

(** Modelled from the spec: [MiningSubscription.disconnect_all] of
    [mining_libs/stratum_listener.py], which is not part of the module.
    It invalidates every downstream subscription. *)
Definition disconnect_all (l : Listener) : Listener :=
  {| service_extranonce := service_extranonce l; subscriptions := ∅ |}.

(** Modelled from the spec: [JobRegistry.set_extranonce] of
    [mining_libs/jobs.py], which is not part of the module.  It stores
    the configuration and leaves the current job alone. *)
Definition set_extranonce (c : ExtranonceConfig) (j : JobRegistry) : JobRegistry :=
  {| extranonce := Some c; current_job := current_job j; cmd := cmd j |}.

(** Modelled from the spec: [StratumProxyService._set_extranonce] of
    [mining_libs/stratum_listener.py], which is not part of the module.
    It stores the configuration handed to subscribing miners. *)
Definition _set_extranonce (c : ExtranonceConfig) (l : Listener) : Listener :=
  {| service_extranonce := Some c; subscriptions := subscriptions l |}.

(** The calls as the handlers make them: the call is recorded, then the
    collaborator's state changes. *)
Definition workers_clear_authorizations : M unit :=
  emit EClearAuthorizations ;;
  modify (with_workers clear_authorizations).

Definition MiningSubscription_disconnect_all : M unit :=
  emit EDisconnectAll ;;
  modify (with_listener disconnect_all).

Definition job_registry_set_extranonce (e1 e2s : value) : M unit :=
  emit (ESetExtranonce e1 e2s) ;;
  modify (with_job_registry (set_extranonce (e1, e2s))).

Definition StratumProxyService_set_extranonce (e1 e2s : value) : M unit :=
  emit (EServiceSetExtranonce e1 e2s) ;;
  modify (with_listener (_set_extranonce (e1, e2s))).

(** Modelled from the spec: [WorkerRegistry.authorize] as [on_connect]
    calls it, with the override identity and no worker.  The handler
    does not wait for its result, so the call is recorded and no
    worker's flag changes. *)
Definition workers_authorize (user : string) (password : option string) : M unit :=
  emit (EWorkersAuthorize user password).

(** ** The handlers of [mining_proxy.py] *)

(** [on_shutdown(f)] *)
Definition on_shutdown : M unit :=
  log INFO "Shutting down proxy..." [] ;;
  modify (with_f (set_is_reconnecting false)).

(** [on_connect(f, workers, job_registry)] up to its [yield]: the
    generator stops with the [mining.subscribe] call in flight. *)
Definition on_connect_begin : M unit :=
  h ← gets (fun w => Factory.main_host (f w));
  log INFO "Connected to Stratum pool at %s:%d" [VStr h.1; VInt h.2] ;;
  add_callback OnConnect CbOnConnect ;;
  workers_clear_authorizations ;;
  log INFO "Subscribing for mining jobs" [] ;;
  emit (ERpc "mining.subscribe" []).

(** The value of the [yield] expression. *)
Definition await (r : RpcOutcome) : M value :=
  match r with
  | RpcResult v => mret v
  | RpcFailure e => raise e
  end.

Definition unpack3 (v : value) : M (value * value * value) :=
  match Py.unpack3 v with
  | inl t => mret t
  | inr e => raise e
  end.

(** [on_connect] from the [yield] on, resumed with the subscribe reply. *)
Definition on_connect_resume (reply : RpcOutcome) : M Factory.t :=
  v ← await reply;
  '(_, extranonce1, extranonce2_size) ← unpack3 v;
  job_registry_set_extranonce extranonce1 extranonce2_size ;;
  StratumProxyService_set_extranonce extranonce1 extranonce2_size ;;
  a ← gets args;
  (if Py.opt_truthy (custom_user a) then
     log WARNING "Authorizing custom user %s, password %s"
       [Py.of_opt_str (custom_user a); Py.of_opt_str (custom_password a)] ;;
     workers_authorize (default "" (custom_user a)) (custom_password a)
   else mret tt) ;;
  gets f.

(** The whole handler when nothing else runs while it waits. *)
Definition on_connect (reply : RpcOutcome) : M Factory.t :=
  on_connect_begin ;; on_connect_resume reply.

(** [on_disconnect(f, workers, job_registry)].  The handler is an
    ordinary function: it runs to its end within the event, and it makes
    no call on [job_registry]. *)
Definition on_disconnect : M Factory.t :=
  h ← gets (fun w => Factory.main_host (f w));
  log INFO "Disconnected from Stratum pool at %s:%d" [VStr h.1; VInt h.2] ;;
  add_callback OnDisconnect CbOnDisconnect ;;
  MiningSubscription_disconnect_all ;;
  workers_clear_authorizations ;;
  gets f.

(** ** Start-up: [main] *)

(** How the three statements of lines 140 to 142 go for a path: all
    well, or an error at [file(path, 'w')], at [fp.write] or at
    [fp.close]. *)
Inductive FileIO : Type :=
| IoOk
| IoOpenFails (e : Py.exn)
| IoWriteFails (e : Py.exn)
| IoCloseFails (e : Py.exn).

(** What [main] reads from outside the module: [version.VERSION], the
    process id, the slice width the worker registry is built with, what
    the file system does with the pid file, and the text of the
    [ValueError] that [int] raises for a literal it rejects. *)
Record Env : Type := {
  VERSION : string;
  getpid : Z;
  registry_slice_width : N;
  pid_file_io : string -> FileIO;
  invalid_literal : string -> string
}.

(** Lines 149-153: [--tor] overwrites the proxy and the pool address. *)
Definition configure_tor (a : Args) : Args :=
  if tor a then
    {| host := "pool57wkuu5yuhzb.onion";
       port := 3333;
       stratum_host := stratum_host a;
       stratum_port := stratum_port a;
       custom_stratum := custom_stratum a;
       custom_user := custom_user a;
       custom_password := custom_password a;
       blocknotify_cmd := blocknotify_cmd a;
       proxy := "127.0.0.1:9050";
       tor := tor a;
       verbose := verbose a;
       quiet := quiet a;
       pid_file := pid_file a;
       log_file := log_file a |}
  else a.

(** Lines 155-163: the value bound to the local [proxy], from
    [args.proxy] as it stands after the Tor step. *)
Definition proxy_value (env : Env) (a : Args) : value + Py.exn :=
  if Py.str_truthy (proxy a) then
    let parts := Py.split ":" (proxy a) in
    if (length parts <? 2)%nat then
      inl (VTuple [VList (VStr <$> parts); VInt 9050])
    else
      match parts !! 0%nat, parts !! 1%nat with
      | Some p0, Some p1 =>
          match Py.int p1 with
          | Some n => inl (VTuple [VStr p0; VInt n])
          | None => inr (Py.ValueError (invalid_literal env p1))
          end
      | _, _ => inr (Py.IndexError "list index out of range")
      end
  else inl VNone.

(** A host name paired with a port number, as the transport expects. *)
Definition host_port_pair (v : value) : bool :=
  match v with
  | VTuple [VStr _; VInt _] => true
  | _ => false
  end.

Definition tuple_items (v : value) : list value :=
  match v with
  | VTuple l => l
  | _ => [v]
  end.

Definition fresh_world (env : Env) (a : Args) : World :=
  {| args := a;
     f := {| Factory.main_host := (host a, port a);
             Factory.is_reconnecting := true;
             Factory.on_connect := [];
             Factory.on_disconnect := [] |};
     workers := {| workers_by_id := ∅;
                   slice_width := registry_slice_width env;
                   next_start := 0%N;
                   free_ranges := [] |};
     job_registry := {| extranonce := None; current_job := None;
                        cmd := blocknotify_cmd a |};
     listener := {| service_extranonce := None; subscriptions := ∅ |} |}.

(** Lines 178-182: the handlers are hooked on the new objects. *)
Definition hook_handlers : M unit :=
  add_callback OnConnect CbOnConnect ;;
  add_callback OnDisconnect CbOnDisconnect ;;
  emit EAddShutdownTrigger.

(** The world [main] leaves behind when it reaches its [yield]. *)
Definition initial_world (env : Env) (a : Args) : World :=
  final (hook_handlers (fresh_world env a)).

(** Lines 139 to 142: the pid file.  The result is the error that
    ends [main], if any, and what was done to the file up to there. *)
Definition write_pid_file (env : Env) (a0 : Args) : option Py.exn * list Effect :=
  if Py.opt_truthy (pid_file a0) then
    let path := default "" (pid_file a0) in
    match pid_file_io env path with
    | IoOk =>
        (None, [EFileOpen path; EWritePid path (getpid env); EFileClose path])
    | IoOpenFails e => (Some e, [])
    | IoWriteFails e => (Some e, [EFileOpen path])
    | IoCloseFails e => (Some e, [EFileOpen path; EWritePid path (getpid env)])
    end
  else (None, []).

(** [main(args)] up to its [yield f.on_connect]: the pid file is
    written, the objects are built and the three handlers hooked; the
    factory starts out reconnecting.  An error on the pid file or on
    the port of the proxy ends [main] on the spot. *)
Definition main_begin (env : Env) (a0 : Args) : Outcome World * list Effect :=
  match write_pid_file env a0 with
  | (Some e, t_pid) => (Raised e, t_pid)
  | (None, t_pid) =>
      let t_ver := [ELog WARNING "Stratum proxy version: %s" [VStr (VERSION env)]] in
      let t_tor :=
        if tor a0 then [ELog WARNING "Configuring Tor connection" []] else [] in
      let a := configure_tor a0 in
      match proxy_value env a with
      | inr e => (Raised e, (t_pid ++ t_ver ++ t_tor)%list)
      | inl prx =>
          let t_prx :=
            if Py.str_truthy (proxy a)
            then [ELog WARNING "Using proxy %s:%d" (tuple_items prx)] else [] in
          (Returned (initial_world env a),
           (t_pid ++ t_ver ++ t_tor ++ t_prx ++
            [ELog WARNING "Trying to connect to Stratum pool at %s:%d"
               [VStr (host a); VInt (port a)];
             ENewFactory (host a) (port a) (verbose a) prx;
             ENewJobRegistry (blocknotify_cmd a);
             EResetTimeout;
             ENewWorkerRegistry] ++ trace (hook_handlers (fresh_world env a)))%list)
      end
  end.

(** [main] from its [yield f.on_connect] on.  [first] is how the first
    run of [on_connect] ended: its failure is raised at line 185 and
    the rest never runs.  [listen] is the error of [reactor.listenTCP],
    if it has one. *)
Definition main_resume (first : Outcome Factory.t) (listen : option Py.exn) : M unit :=
  match first with
  | Raised e => raise e
  | Returned _ =>
      a ← gets args;
      (if (0 <? stratum_port a)%Z then
         emit ESetUpstreamFactory ;;
         emit (ESetCustomUser (custom_user a) (custom_password a)) ;;
         match listen with
         | Some e => raise e
         | None => emit (EListenTCP (stratum_port a) (stratum_host a))
         end
       else mret tt) ;;
      log WARNING "-----------------------------------------------------------------------" [] ;;
      (if String.eqb (stratum_host a) "0.0.0.0" then
         log WARNING "PROXY IS LISTENING ON ALL IPs ON PORT %d (stratum)"
           [VInt (stratum_port a)]
       else
         log WARNING "LISTENING FOR MINERS ON stratum+tcp://%s:%d (stratum)"
           [VStr (stratum_host a); VInt (stratum_port a)]) ;;
      log WARNING "-----------------------------------------------------------------------" []
  end.

(** ** The downstream side, from the specification *)

(** The identity override, configured exactly when [on_connect] finds
    [args.custom_user] true. *)
Definition override (a : Args) : option (string * option string) :=
  if Py.opt_truthy (custom_user a)
  then Some (default "" (custom_user a), custom_password a)
  else None.

(** The size of the extranonce2 space the current configuration gives. *)
Definition space_bound (c : ExtranonceConfig) : option N :=
  match c.2 with
  | VInt n => if (0 <=? n)%Z then Some (2 ^ Z.to_N n)%N else None
  | _ => None
  end.

(** Modelled from the spec: the range allocator behind the miners'
    [subscribe] in [mining_libs/stratum_listener.py], which is not part
    of the module.  A freed range is handed out again first; otherwise
    a monotonic counter cuts the next slice, as long as it fits. *)
Definition allocate (bound : N) (r : WorkerRegistry) : option (Range * WorkerRegistry) :=
  match free_ranges r with
  | rg :: rest =>
      Some (rg, {| workers_by_id := workers_by_id r;
                   slice_width := slice_width r;
                   next_start := next_start r;
                   free_ranges := rest |})
  | [] =>
      let stop := (next_start r + slice_width r)%N in
      if (stop <=? bound)%N then
        Some ((next_start r, stop),
              {| workers_by_id := workers_by_id r;
                 slice_width := slice_width r;
                 next_start := stop;
                 free_ranges := [] |})
      else None
  end.

(** Modelled from the spec: the worker entry a miner's [subscribe]
    creates.  A connection that is already registered keeps its range. *)
Definition register (cid : N) (bound : N) (r : WorkerRegistry)
    : option (Range * WorkerRegistry) :=
  match workers_by_id r !! cid with
  | Some k => Some (extranonce2_range k, r)
  | None =>
      '(rg, r1) ← allocate bound r;
      Some (rg, with_workers_by_id
                  (insert cid {| connection_id := cid;
                                 presented_username := "";
                                 presented_password := "";
                                 authorized := false;
                                 extranonce2_range := rg |}) r1)
  end.

(** Modelled from the spec: [WorkerRegistry.deregister], which is not
    part of the module.  It removes the worker and frees its range. *)
Definition deregister (cid : N) (r : WorkerRegistry) : WorkerRegistry :=
  match workers_by_id r !! cid with
  | Some k =>
      {| workers_by_id := delete cid (workers_by_id r);
         slice_width := slice_width r;
         next_start := next_start r;
         free_ranges := extranonce2_range k :: free_ranges r |}
  | None => r
  end.

Definition with_subscriptions (g : gset N -> gset N) (l : Listener) : Listener :=
  {| service_extranonce := service_extranonce l;
     subscriptions := g (subscriptions l) |}.

(** Modelled from the spec: a miner's [subscribe] in
    [mining_libs/stratum_listener.py].  The reply is
    [(extranonce1, assigned_start, extranonce2_size)]. *)
Definition worker_subscribe (cid : N) : M value :=
  cfg ← gets (fun w => service_extranonce (listener w));
  match cfg with
  | None => raise (Py.RemoteError "no extranonce configuration")
  | Some c =>
      r ← gets workers;
      match space_bound c ≫= (fun bound => register cid bound r) with
      | None => raise (Py.RemoteError "no extranonce2 range left")
      | Some (rg, r1) =>
          modify (with_workers (fun _ => r1)) ;;
          modify (with_listener (with_subscriptions (union {[cid]}))) ;;
          mret (VTuple [c.1; VInt (Z.of_N rg.1); c.2])
      end
  end.

(** Modelled from the spec: the end of a miner's connection. *)
Definition worker_disconnect (cid : N) : M unit :=
  modify (with_workers (deregister cid)) ;;
  modify (with_listener (with_subscriptions (fun s => s ∖ {[cid]}))).

Definition present (user password : string) (b : bool) (k : Worker) : Worker :=
  {| connection_id := connection_id k;
     presented_username := user;
     presented_password := password;
     authorized := b;
     extranonce2_range := extranonce2_range k |}.

Definition is_true_reply (v : value) : bool :=
  match v with
  | VBool true => true
  | _ => false
  end.

(** Modelled from the spec: [WorkerRegistry.authorize] for a miner.
    With an override the presented credentials are cosmetic and the
    call succeeds locally; otherwise it is forwarded upstream and the
    boolean result is cached against the worker. *)
Definition worker_authorize (cid : N) (user password : string)
    (upstream : RpcOutcome) : M bool :=
  a ← gets args;
  match override a with
  | Some _ =>
      modify (with_workers (with_workers_by_id (alter (present user password true) cid))) ;;
      mret true
  | None =>
      emit (ERpc "mining.authorize" [VStr user; VStr password]) ;;
      v ← await upstream;
      modify (with_workers (with_workers_by_id
                (alter (present user password (is_true_reply v)) cid))) ;;
      mret (is_true_reply v)
  end.

Definition is_authorized (w : World) (cid : N) : bool :=
  match workers_by_id (workers w) !! cid with
  | Some k => authorized k
  | None => false
  end.

(** Modelled from the spec: [JobRegistry.current_job_id]. *)
Definition current_job_id (j : JobRegistry) : option string :=
  job_id <$> current_job j.

(** The authorized workers with a live subscription. *)
Definition receives (w : World) (cid : N) : bool :=
  is_authorized w cid && bool_decide (cid ∈ subscriptions (listener w)).

Definition recipients (w : World) : list N :=
  List.filter (receives w) (map_to_list (workers_by_id (workers w))).*1.

Definition store_job (j : Job) (r : JobRegistry) : JobRegistry :=
  {| extranonce := extranonce r; current_job := Some j; cmd := cmd r |}.

Fixpoint broadcast (j : Job) (cids : list N) : M unit :=
  match cids with
  | [] => mret tt
  | cid :: rest => emit (ENotifyWorker cid j) ;; broadcast j rest
  end.

(** Modelled from the spec: [JobRegistry.on_job_notify] of
    [mining_libs/jobs.py], which is not part of the module.  The job
    becomes current; with an extranonce configuration in place it goes
    to every authorized, live worker; a changed previous block hash
    starts the configured command. *)
Definition on_job_notify (j : Job) : M unit :=
  previous ← gets (fun w => current_job (job_registry w));
  modify (with_job_registry (store_job j)) ;;
  cfg ← gets (fun w => extranonce (job_registry w));
  (if cfg is Some _ then cids ← gets recipients; broadcast j cids else mret tt) ;;
  c ← gets (fun w => cmd (job_registry w));
  match previous with
  | Some p =>
      if Py.str_truthy c && negb (String.eqb (prev_block_hash p) (prev_block_hash j))
      then emit (EBlockNotify (prev_block_hash j)) else mret tt
  | None => mret tt
  end.

Definition upstream_user (w : World) (cid : N) : string :=
  match override (args w) with
  | Some (u, _) => u
  | None => default "" (presented_username <$> workers_by_id (workers w) !! cid)
  end.

(** Modelled from the spec: [ShareRelay.submit], which is not part of
    the module.  A share from a worker that is not authorized, or for a
    job that is not the current one, is turned down on the spot;
    any other is rewritten into [mining.submit] and the upstream answer
    decides. *)
Definition submit (s : ShareSubmission) (upstream : RpcOutcome) : M SubmitResult :=
  w ← gets id;
  if negb (is_authorized w (worker_id s)) then mret (Rejected "unauthorized")
  else if negb (bool_decide (current_job_id (job_registry w) = Some (share_job_id s)))
  then mret (Rejected "stale job")
  else
    emit (ERpc "mining.submit"
            [VStr (upstream_user w (worker_id s)); VStr (share_job_id s);
             VStr (extranonce2 s); VStr (ntime s); VStr (nonce s)]) ;;
    match upstream with
    | RpcResult v =>
        mret (if is_true_reply v then Accepted else Rejected "rejected by the pool")
    | RpcFailure (Py.RemoteError msg) => mret (Rejected msg)
    | RpcFailure e => raise e
    end.

(** ** Transport events *)

(** The transport keeps one deferred per event kind and replaces it by a
    fresh one just before firing it, so a callback added while the
    handlers run waits for the next event of that kind. *)
Definition take_callbacks (ev : TransportEvent) : M (list Callback) :=
  cbs ← gets (fun w =>
    match ev with
    | OnConnect => Factory.on_connect (f w)
    | OnDisconnect => Factory.on_disconnect (f w)
    end);
  modify (with_f (fun x =>
    match ev with
    | OnConnect =>
        {| Factory.main_host := Factory.main_host x;
           Factory.is_reconnecting := Factory.is_reconnecting x;
           Factory.on_connect := [];
           Factory.on_disconnect := Factory.on_disconnect x |}
    | OnDisconnect =>
        {| Factory.main_host := Factory.main_host x;
           Factory.is_reconnecting := Factory.is_reconnecting x;
           Factory.on_connect := Factory.on_connect x;
           Factory.on_disconnect := [] |}
    end)) ;;
  mret cbs.

Definition run_callback (cb : Callback) : M unit :=
  match cb with
  | CbOnConnect => on_connect_begin
  | CbOnDisconnect => on_disconnect ;; mret tt
  end.

Fixpoint fire (cbs : list Callback) : M unit :=
  match cbs with
  | [] => mret tt
  | cb :: rest => run_callback cb ;; fire rest
  end.

(** The connection to the pool is up: the hooked handlers start. *)
Definition connect_event : M unit :=
  cbs ← take_callbacks OnConnect;
  attempt (fire cbs).

(** The connection to the pool is lost: the hooked handlers run, then
    the factory tries again if and only if it is still reconnecting. *)
Definition disconnect_event : M unit :=
  cbs ← take_callbacks OnDisconnect;
  attempt (fire cbs) ;;
  again ← gets (fun w => Factory.is_reconnecting (f w));
  if again : bool then emit EReconnect else mret tt.

(** ** The proxy as a transition system *)

Inductive Event : Type :=
| EvConnect
| EvSubscribeReply (reply : RpcOutcome)
| EvDisconnect
| EvShutdown
| EvNotify (j : Job)
| EvWorkerSubscribe (cid : N)
| EvWorkerAuthorize (cid : N) (user password : string) (upstream : RpcOutcome)
| EvWorkerDisconnect (cid : N)
| EvSubmit (s : ShareSubmission) (upstream : RpcOutcome).

Definition step (e : Event) : M unit :=
  match e with
  | EvConnect => connect_event
  | EvSubscribeReply reply => attempt (on_connect_resume reply)
  | EvDisconnect => disconnect_event
  | EvShutdown => on_shutdown
  | EvNotify j => on_job_notify j
  | EvWorkerSubscribe cid => attempt (worker_subscribe cid)
  | EvWorkerAuthorize cid user password upstream =>
      attempt (worker_authorize cid user password upstream)
  | EvWorkerDisconnect cid => worker_disconnect cid
  | EvSubmit s upstream =>
      attempt (res ← submit s upstream; emit (EShareReply (worker_id s) res))
  end.

Fixpoint run (evs : list Event) : M unit :=
  match evs with
  | [] => mret tt
  | e :: rest => step e ;; run rest
  end.

(** Run [m] and hand back how it ended. *)
Definition capture {A : Type} (m : M A) : M (Outcome A) := fun w =>
  let r := m w in MkRun (Returned (outcome r)) (final r) (trace r).

(** The first connect event as [main] lives it: the hooked [on_connect]
    starts, the subscribe reply resumes it, and its result or failure
    resumes [main], which waits on the same deferred. *)
Definition first_session (reply : RpcOutcome) (listen : option Py.exn) : M unit :=
  connect_event ;;
  first ← capture (on_connect_resume reply);
  main_resume first listen.

(** ** Concrete worlds used to exercise the statements *)

Definition socks_args (s : string) : Args :=
  {| host := host default_args; port := port default_args;
     stratum_host := stratum_host default_args;
     stratum_port := stratum_port default_args;
     custom_stratum := None; custom_user := None; custom_password := None;
     blocknotify_cmd := ""; proxy := s; tor := false; verbose := false;
     quiet := false; pid_file := None; log_file := None |}.

Definition custom_args (user : string) (password : option string) : Args :=
  {| host := host default_args; port := port default_args;
     stratum_host := stratum_host default_args;
     stratum_port := stratum_port default_args;
     custom_stratum := None; custom_user := Some user;
     custom_password := password;
     blocknotify_cmd := ""; proxy := ""; tor := false; verbose := false;
     quiet := false; pid_file := None; log_file := None |}.

(** A sample environment: every pid file can be written. *)
Definition env1 : Env :=
  {| VERSION := "1.5.7"; getpid := 4242; registry_slice_width := 1000%N;
     pid_file_io := fun _ => IoOk;
     invalid_literal := fun s => "invalid literal for int() with base 10: '" ++ s ++ "'" |}.

Definition reply1 : RpcOutcome :=
  RpcResult (VList [VList []; VStr "08000002"; VInt 32]).

Definition job1 : Job :=
  {| job_id := "J1"; prev_block_hash := "00ab"; coinbase_part1 := "01";
     coinbase_part2 := "02"; merkle_branch := []; block_version := "2";
     bits := "1d00ffff"; time := "504e86b9"; clean_jobs := true |}.

Definition share (cid : N) (j : string) : ShareSubmission :=
  {| worker_id := cid; share_job_id := j; extranonce2 := "0001";
     ntime := "504e86ed"; nonce := "b2957c02" |}.

(** A session in full swing: two miners subscribed and authorized, one
    job distributed. *)
Definition busy_events : list Event :=
  [EvConnect; EvSubscribeReply reply1;
   EvWorkerSubscribe 1; EvWorkerSubscribe 2;
   EvWorkerAuthorize 1 "alice" "x" (RpcResult (VBool true));
   EvWorkerAuthorize 2 "bob" "x" (RpcResult (VBool true));
   EvNotify job1].

Definition busy_world : World :=
  final (run busy_events (initial_world env1 default_args)).

(** ** What the properties speak about *)

(** The factory has been told not to reconnect. *)
Definition not_reconnecting (w : World) : Prop :=
  Factory.is_reconnecting (f w) = false.

(** The effect is not a reconnect attempt. *)
Definition no_reconnect (e : Effect) : Prop := e <> EReconnect.

(** The claim that a disconnect after [shutdown] draws no reaction. *)
Definition silent_after_shutdown (w : World) : Prop :=
  trace (step EvDisconnect (final (on_shutdown w))) = [].

(** The effect is a line written to the log. *)
Definition is_log (e : Effect) : bool :=
  match e with
  | ELog _ _ _ => true
  | _ => false
  end.

(** The claim that a second [shutdown] in a row changes neither the
    resulting state nor the effects. *)
Definition shutdown_twice_as_once (w : World) : Prop :=
  final ((on_shutdown ;; on_shutdown) w) = final (on_shutdown w) /\
  trace ((on_shutdown ;; on_shutdown) w) = trace (on_shutdown w).

(** Every worker's [authorized] flag is false. *)
Definition all_unauthorized (w : World) : Prop :=
  map_Forall (fun _ k => authorized k = false) (workers_by_id (workers w)).

(** The claim that the disconnect handler wipes the workers, the
    subscriptions, the stored job and the extranonce configuration. *)
Definition disconnect_clears_everything (w : World) : Prop :=
  let w' := final (on_disconnect w) in
  all_unauthorized w' /\
  subscriptions (listener w') = ∅ /\
  current_job (job_registry w') = None /\
  extranonce (job_registry w') = None.

(** The part of the handshake that line 96 guards. *)
Definition authorize_trace (a : Args) : list Effect :=
  if Py.opt_truthy (custom_user a) then
    [ELog WARNING "Authorizing custom user %s, password %s"
       [Py.of_opt_str (custom_user a); Py.of_opt_str (custom_password a)];
     EWorkersAuthorize (default "" (custom_user a)) (custom_password a)]
  else [].

(** The world once both installs of lines 93 and 94 are done. *)
Definition installed (c : ExtranonceConfig) (w : World) : World :=
  with_listener (_set_extranonce c) (with_job_registry (set_extranonce c) w).

(** What [on_connect] does before it waits, lines 82 to 92. *)
Definition on_connect_begin_trace (w : World) : list Effect :=
  [ELog INFO "Connected to Stratum pool at %s:%d"
     [VStr (Factory.main_host (f w)).1; VInt (Factory.main_host (f w)).2];
   EAddCallback OnConnect CbOnConnect;
   EClearAuthorizations;
   ELog INFO "Subscribing for mining jobs" [];
   ERpc "mining.subscribe" []].

(** A reply that lets the handshake run to its end. *)
Definition completes (reply : RpcOutcome) : bool :=
  match reply with
  | RpcResult v =>
      match Py.unpack3 v with
      | inl _ => true
      | inr _ => false
      end
  | RpcFailure _ => false
  end.

(** The [workers.authorize] calls among some effects. *)
Definition authorize_calls (t : list Effect) : list (string * option string) :=
  omap (fun e =>
          match e with
          | EWorkersAuthorize u p => Some (u, p)
          | _ => None
          end) t.

(** The claim that with an override every run of [on_connect] makes
    the authorize call with the override's credentials. *)
Definition authorize_on_every_connect (w : World) (reply : RpcOutcome) : Prop :=
  Py.opt_truthy (custom_user (args w)) = true ->
  authorize_calls (trace (on_connect reply w)) =
    [(default "" (custom_user (args w)), custom_password (args w))].

(** The same session with an identity override configured. *)
Definition custom_world : World :=
  final (run busy_events (initial_world env1 (custom_args "pooluser" (Some "secret")))).

(** Each handler sits, once, on the deferred of its own event. *)
Definition hooked (w : World) : Prop :=
  Factory.on_connect (f w) = [CbOnConnect] /\
  Factory.on_disconnect (f w) = [CbOnDisconnect].

Definition any_effect (e : Effect) : Prop := True.

(** [x] is one of the extranonce2 values of the range. *)
Definition in_range (x : N) (rg : Range) : Prop := (rg.1 <= x < rg.2)%N.

(** One interval ends before the other starts. *)
Definition separated (a b : Range) : Prop := (a.2 <= b.1 \/ b.2 <= a.1)%N.

(** No extranonce2 value lies in the ranges of two different workers. *)
Definition pairwise_disjoint (r : WorkerRegistry) : Prop :=
  forall c1 c2 k1 k2 x,
    c1 <> c2 ->
    workers_by_id r !! c1 = Some k1 ->
    workers_by_id r !! c2 = Some k2 ->
    in_range x (extranonce2_range k1) ->
    in_range x (extranonce2_range k2) -> False.

(** What the allocator maintains: every range handed out so far, live
    or freed, ends at or below the counter, and any two of them that
    are held at the same time are separated. *)
Record alloc_inv (r : WorkerRegistry) : Prop := {
  live_below : forall c k,
    workers_by_id r !! c = Some k -> ((extranonce2_range k).2 <= next_start r)%N;
  free_below : forall i rg,
    free_ranges r !! i = Some rg -> (rg.2 <= next_start r)%N;
  live_live : forall c1 c2 k1 k2,
    c1 <> c2 -> workers_by_id r !! c1 = Some k1 -> workers_by_id r !! c2 = Some k2 ->
    separated (extranonce2_range k1) (extranonce2_range k2);
  free_free : forall (i j : nat) r1 r2,
    i <> j -> free_ranges r !! i = Some r1 -> free_ranges r !! j = Some r2 ->
    separated r1 r2;
  live_free : forall c k (i : nat) rg,
    workers_by_id r !! c = Some k -> free_ranges r !! i = Some rg ->
    separated (extranonce2_range k) rg
}.

(** The worker registry of the world satisfies the allocator's invariant. *)
Definition ranges_kept (w : World) : Prop := alloc_inv (workers w).

(** Nothing reaches a miner: no job is pushed, no share is accepted. *)
Definition no_delivery (e : Effect) : Prop :=
  match e with
  | ENotifyWorker _ _ => False
  | EShareReply _ Accepted => False
  | _ => True
  end.

(** The event is not a miner's authorization that succeeds. *)
Definition no_new_authorization (a : Args) (e : Event) : bool :=
  match e with
  | EvWorkerAuthorize _ _ _ upstream =>
      match override a, upstream with
      | Some _, _ => false
      | None, RpcResult v => negb (is_true_reply v)
      | None, RpcFailure _ => true
      end
  | _ => true
  end.

(** The configuration is [a] and no worker is authorized. *)
Definition barred (a : Args) (w : World) : Prop :=
  args w = a /\ all_unauthorized w.

(** A stretch after a disconnect: a job arrives, a miner submits a
    share for it, the pool is reached again but the subscribe call
    fails, a miner subscribes and its authorization is turned down. *)
Definition interval_events : list Event :=
  [EvNotify job1;
   EvSubmit (share 1 "J1") (RpcResult (VBool true));
   EvConnect;
   EvSubscribeReply (RpcFailure (Py.RemoteError "timeout"));
   EvWorkerSubscribe 1;
   EvWorkerAuthorize 1 "alice" "x" (RpcResult (VBool false));
   EvNotify job1].

(** The events hold no subscribe reply that completes a handshake. *)
Definition before_next_handshake (evs : list Event) : bool :=
  forallb (fun e =>
             match e with
             | EvSubscribeReply reply => negb (completes reply)
             | _ => true
             end) evs.

(** The claim that between a disconnect and the completion of the next
    handshake nothing reaches a miner. *)
Definition barrier_holds (w : World) (evs : list Event) : Prop :=
  before_next_handshake evs = true ->
  Forall no_delivery (trace (run (EvDisconnect :: evs) w)).

Definition job2 : Job :=
  {| job_id := "J2"; prev_block_hash := "00cd"; coinbase_part1 := "01";
     coinbase_part2 := "02"; merkle_branch := []; block_version := "2";
     bits := "1d00ffff"; time := "504e86c9"; clean_jobs := true |}.

(** With an override: the pool is reached again and the subscribe call
    is still pending when a miner comes back, authorizes, gets a job
    and submits a share for it. *)
Definition comeback_events : list Event :=
  [EvConnect;
   EvWorkerSubscribe 1;
   EvWorkerAuthorize 1 "alice" "x" (RpcFailure (Py.RemoteError "not asked"));
   EvNotify job2;
   EvSubmit (share 1 "J2") (RpcResult (VBool true))].

(** ** Log settings: the module-level code of lines 42 to 56 *)

(** The attributes of [stratum.settings] the module assigns. *)
Record Settings : Type := {
  DEBUG : bool;
  LOGLEVEL : string;
  LOGFILE : option string
}.

(** Line 43, then the [__main__] block of lines 45 to 56, run on the
    settings as the library ships them. *)
Definition configure_settings (a : Args) (s0 : Settings) : Settings :=
  let s1 := {| DEBUG := DEBUG s0; LOGLEVEL := "INFO"; LOGFILE := LOGFILE s0 |} in
  let s2 :=
    if quiet a then
      {| DEBUG := false; LOGLEVEL := "WARNING"; LOGFILE := LOGFILE s1 |}
    else if verbose a then
      {| DEBUG := true; LOGLEVEL := "DEBUG"; LOGFILE := LOGFILE s1 |}
    else s1 in
  if Py.opt_truthy (log_file a) then
    {| DEBUG := DEBUG s2; LOGLEVEL := LOGLEVEL s2; LOGFILE := log_file a |}
  else s2.

(** ** The update check: [print_deprecation_warning] and [test_update] *)

Module Updates.

(** The functions handed to [reactor.callLater]. *)
Inductive Timer : Type :=
| PrintDeprecationWarning
| TestUpdate.

(** What the two functions do to the outside, in order. *)
Inductive Act : Type :=
| Warn (msg : string)
| UrlOpen (url : string)
| CallLater (delay : Z) (cb : Timer).

Definition GIT_URL : string :=
  "https://raw.github.com/slush0/stratum-mining-proxy/master/mining_libs/version.py".

Fixpoint str_in (needle hay : string) : bool :=
  String.prefix needle hay ||
  match hay with
  | EmptyString => false
  | String _ rest => str_in needle rest
  end.

(** [print_deprecation_warning()] *)
Definition print_deprecation_warning : list Act :=
  [Warn "New proxy version available! Please update!";
   CallLater 30 PrintDeprecationWarning].

(** [test_update()].  [page] is what [urlopen(GIT_URL).read()] gave, or
    [None] when anything inside the [try] raised. *)
Definition test_update (VERSION : string) (page : option string) : list Act :=
  ([Warn "Checking for updates..."; UrlOpen GIT_URL] ++
   match page with
   | Some body =>
       if negb (str_in VERSION body) then print_deprecation_warning
       else [CallLater (3600 * 24) TestUpdate]
   | None => [Warn "Check failed."; CallLater (3600 * 24) TestUpdate]
   end)%list.

(** The timers an activation leaves with the reactor. *)
Definition scheduled (acts : list Act) : list (Z * Timer) :=
  omap (fun a =>
          match a with
          | CallLater d cb => Some (d, cb)
          | _ => None
          end) acts.

Definition run_timer (VERSION : string) (cb : Timer) (page : option string) : list Act :=
  match cb with
  | PrintDeprecationWarning => print_deprecation_warning
  | TestUpdate => test_update VERSION page
  end.

(** The reactor fires the oldest pending timer; [page] is what a fetch
    made by that activation would get. *)
Definition tick (VERSION : string) (page : option string)
    (pending : list (Z * Timer)) : list Act * list (Z * Timer) :=
  match pending with
  | [] => ([], [])
  | (_, cb) :: rest =>
      let acts := run_timer VERSION cb page in
      (acts, (rest ++ scheduled acts)%list)
  end.

Fixpoint ticks (VERSION : string) (pages : list (option string))
    (pending : list (Z * Timer)) : list Act * list (Z * Timer) :=
  match pages with
  | [] => ([], pending)
  | page :: more =>
      let '(acts, pending1) := tick VERSION page pending in
      let '(acts', pending2) := ticks VERSION more pending1 in
      ((acts ++ acts')%list, pending2)
  end.

Definition is_fetch (a : Act) : bool :=
  match a with
  | UrlOpen _ => true
  | _ => false
  end.

Definition is_check_timer (t : Z * Timer) : bool :=
  match t.2 with
  | TestUpdate => true
  | PrintDeprecationWarning => false
  end.

(** The fetch found a page that does not mention [VERSION]. *)
Definition detects (VERSION : string) (page : option string) : bool :=
  match page with
  | Some body => negb (str_in VERSION body)
  | None => false
  end.

Definition is_deprecation_warning (a : Act) : bool :=
  match a with
  | Warn msg => String.eqb msg "New proxy version available! Please update!"
  | _ => false
  end.

Definition fetches (acts : list Act) : nat := length (List.filter is_fetch acts).

Definition deprecation_warnings (acts : list Act) : nat :=
  length (List.filter is_deprecation_warning acts).

End Updates.

(** ** More concrete inputs *)

(** [--tor] together with a pool address and a [--socks] string. *)
Definition tor_args : Args :=
  {| host := "example.org"; port := 1; stratum_host := "0.0.0.0";
     stratum_port := 3333; custom_stratum := None; custom_user := None;
     custom_password := None; blocknotify_cmd := ""; proxy := "nowhere";
     tor := true; verbose := false; quiet := false; pid_file := None;
     log_file := None |}.

(** Both [--quiet] and [--verbose]. *)
Definition quiet_verbose_args : Args :=
  {| host := host default_args; port := port default_args;
     stratum_host := stratum_host default_args;
     stratum_port := stratum_port default_args;
     custom_stratum := None; custom_user := None; custom_password := None;
     blocknotify_cmd := ""; proxy := ""; tor := false; verbose := true;
     quiet := true; pid_file := None; log_file := None |}.

(** ** More predicates *)

(** The claim that every [--socks] string without [':'] ends up as the
    one-element list paired with 9050. *)
Definition socks_claim (env : Env) (a0 : Args) : Prop :=
  Py.str_contains ":" (proxy a0) = false ->
  proxy_value env (configure_tor a0) =
    inl (VTuple [VList [VStr (proxy a0)]; VInt 9050]).

(** The effects on the pid file among some effects. *)
Definition pid_effects (t : list Effect) : list Effect :=
  List.filter (fun e =>
                 match e with
                 | EFileOpen _ | EWritePid _ _ | EFileClose _ => true
                 | _ => false
                 end) t.

(** The dashed line [main] logs above and below its announcement. *)
Definition is_banner_rule (e : Effect) : bool :=
  match e with
  | ELog WARNING fmt [] =>
      String.eqb fmt
        "-----------------------------------------------------------------------"
  | _ => false
  end.

(** A file system that refuses to open any pid file. *)
Definition env_readonly : Env :=
  {| VERSION := VERSION env1; getpid := getpid env1;
     registry_slice_width := registry_slice_width env1;
     pid_file_io := fun _ => IoOpenFails (Py.IOError "Permission denied");
     invalid_literal := invalid_literal env1 |}.

Definition pid_args (path : string) : Args :=
  {| host := host default_args; port := port default_args;
     stratum_host := stratum_host default_args;
     stratum_port := stratum_port default_args;
     custom_stratum := None; custom_user := None; custom_password := None;
     blocknotify_cmd := ""; proxy := ""; tor := false; verbose := false;
     quiet := false; pid_file := Some path; log_file := None |}.

(** The [reactor.listenTCP] calls among some effects. *)
Definition listen_calls (t : list Effect) : list (Z * string) :=
  omap (fun e =>
          match e with
          | EListenTCP p i => Some (p, i)
          | _ => None
          end) t.

(** The factories created among some effects. *)
Definition factories (t : list Effect) : list (string * Z * bool * value) :=
  omap (fun e =>
          match e with
          | ENewFactory h p d prx => Some (h, p, d, prx)
          | _ => None
          end) t.

Definition is_subscribe_call (e : Effect) : bool :=
  match e with
  | ERpc method _ => String.eqb method "mining.subscribe"
  | _ => false
  end.

Definition is_disconnect_all (e : Effect) : bool :=
  match e with
  | EDisconnectAll => true
  | _ => false
  end.

Definition is_connect_event (e : Event) : bool :=
  match e with
  | EvConnect => true
  | _ => false
  end.

Definition is_disconnect_event (e : Event) : bool :=
  match e with
  | EvDisconnect => true
  | _ => false
  end.

(** Neither a subscribe call nor a [disconnect_all]. *)
Definition plain (e : Effect) : Prop :=
  is_subscribe_call e = false /\ is_disconnect_all e = false.

(** The computation always returns. *)
Definition returns {A : Type} (m : M A) : Prop :=
  forall w, exists a, outcome (m w) = Returned a.

(** ** A program logic for the handlers *)

(** [hoare P m Q E T]: started in a world satisfying [P], the
    computation [m] only performs effects satisfying [T]; when it
    returns [a] the world satisfies [Q a], when it raises, [E]. *)
Definition hoare {A : Type} (P : World -> Prop) (m : M A)
    (Q : A -> World -> Prop) (E : World -> Prop) (T : Effect -> Prop) : Prop :=
  forall w, P w ->
    Forall T (trace (m w)) /\
    match outcome (m w) with
    | Returned a => Q a (final (m w))
    | Raised _ => E (final (m w))
    end.

(** [m] keeps [I] and only performs effects satisfying [T]. *)
Definition keeps {A : Type} (I : World -> Prop) (T : Effect -> Prop) (m : M A) : Prop :=
  hoare I m (fun _ => I) I T.

(** ** Properties *)

Section Logic.
Context {A B : Type}.
Implicit Types (P E I : World -> Prop) (T : Effect -> Prop).

Lemma hoare_ret P E T (a : A) (Q : A -> World -> Prop) :
  (forall w, P w -> Q a w) -> hoare P (mret a) Q E T.
Proof. intros H w Hw. split; [constructor | cbn; auto]. Qed.

Lemma hoare_bind P E T (m : M A) (k : A -> M B) Q R :
  hoare P m Q E T ->
  (forall a, hoare (Q a) (k a) R E T) ->
  hoare P (m ≫= k) R E T.
Proof.
  intros Hm Hk w Hw. destruct (Hm w Hw) as [Ht Ho].
  unfold mbind, M_bind. destruct (m w) as [[a | e] w1 t1]; cbn in *.
  - destruct (Hk a w1 Ho) as [Ht2 Ho2]. split; [|exact Ho2].
    apply Forall_app; auto.
  - auto.
Qed.

Lemma hoare_weaken (P P' E E' : World -> Prop) T (m : M A) (Q Q' : A -> World -> Prop) :
  hoare P' m Q' E' T ->
  (forall w, P w -> P' w) ->
  (forall a w, Q' a w -> Q a w) ->
  (forall w, E' w -> E w) ->
  hoare P m Q E T.
Proof.
  intros H HP HQ HE w Hw. destruct (H w (HP w Hw)) as [Ht Ho].
  split; [exact Ht|]. destruct (outcome (m w)); auto.
Qed.

Lemma hoare_gets P E T (g : World -> A) :
  hoare P (gets g) (fun a w => P w /\ a = g w) E T.
Proof. intros w Hw. split; [constructor | cbn; auto]. Qed.

Lemma hoare_raise P E T (e : Py.exn) (Q : A -> World -> Prop) :
  (forall w, P w -> E w) -> hoare P (raise e) Q E T.
Proof. intros H w Hw. split; [constructor | cbn; auto]. Qed.

Lemma hoare_attempt P E T (m : M A) Q (R : World -> Prop) :
  hoare P m Q R T ->
  (forall a w, Q a w -> R w) ->
  hoare P (attempt m) (fun _ => R) E T.
Proof.
  intros H HQ w Hw. destruct (H w Hw) as [Ht Ho]. unfold attempt; cbn.
  split; [exact Ht|]. destruct (outcome (m w)); eauto.
Qed.
End Logic.

Lemma hoare_emit (P E : World -> Prop) (T : Effect -> Prop) (e : Effect) :
  T e -> hoare P (emit e) (fun _ => P) E T.
Proof. intros H w Hw. split; [repeat constructor; exact H | cbn; auto]. Qed.

Lemma hoare_modify (P E : World -> Prop) (T : Effect -> Prop) (g : World -> World)
    (Q : World -> Prop) :
  (forall w, P w -> Q (g w)) -> hoare P (modify g) (fun _ => Q) E T.
Proof. intros H w Hw. split; [constructor | cbn; auto]. Qed.

Lemma keeps_bind {A B : Type} I T (m : M A) (k : A -> M B) :
  keeps I T m -> (forall a, keeps I T (k a)) -> keeps I T (m ≫= k).
Proof. intros Hm Hk. eapply hoare_bind; [exact Hm | exact Hk]. Qed.

Lemma keeps_ret {A : Type} I T (a : A) : keeps I T (mret a).
Proof. apply hoare_ret. auto. Qed.

Lemma keeps_gets {A : Type} I T (g : World -> A) : keeps I T (gets g).
Proof.
  apply (hoare_weaken I I I I T (gets g) _ (fun a w => I w /\ a = g w));
    [apply hoare_gets | auto | intros a w [Hw _]; exact Hw | auto].
Qed.

Lemma keeps_raise {A : Type} I T (e : Py.exn) : keeps I T (@raise A e).
Proof. apply hoare_raise. auto. Qed.

Lemma keeps_emit I T (e : Effect) : T e -> keeps I T (emit e).
Proof. intros H. apply hoare_emit, H. Qed.

Lemma keeps_modify I T (g : World -> World) :
  (forall w, I w -> I (g w)) -> keeps I T (modify g).
Proof. intros H. apply hoare_modify, H. Qed.

Lemma keeps_attempt {A : Type} I T (m : M A) : keeps I T m -> keeps I T (attempt m).
Proof. intros H. eapply hoare_attempt; [exact H | auto]. Qed.

Lemma keeps_final {A : Type} I T (m : M A) w : keeps I T m -> I w -> I (final (m w)).
Proof.
  intros H Hw. destruct (H w Hw) as [_ Ho]. destruct (outcome (m w)); exact Ho.
Qed.

Lemma keeps_trace {A : Type} I T (m : M A) w : keeps I T m -> I w -> Forall T (trace (m w)).
Proof. intros H Hw. exact (proj1 (H w Hw)). Qed.

Lemma run_bind_gets {A B : Type} (g : World -> A) (k : A -> M B) (w : World) :
  (gets g ≫= k) w = k (g w) w.
Proof. unfold mbind, M_bind, gets. cbn. destruct (k (g w) w); reflexivity. Qed.

Lemma run_bind_ret {A B : Type} (a : A) (k : A -> M B) (w : World) :
  (mret a ≫= k) w = k a w.
Proof. unfold mbind, M_bind, mret, M_ret. cbn. destruct (k a w); reflexivity. Qed.

Lemma run_bind_eq {A B : Type} (m : M A) (k : A -> M B) (w w1 : World)
    (a : A) (t1 : list Effect) :
  m w = MkRun (Returned a) w1 t1 ->
  (m ≫= k) w = MkRun (outcome (k a w1)) (final (k a w1)) (t1 ++ trace (k a w1))%list.
Proof. intros H. unfold mbind, M_bind. rewrite H. reflexivity. Qed.

Lemma run_bind_emit {A : Type} (e : Effect) (k : unit -> M A) (w : World) :
  (emit e ≫= k) w =
  MkRun (outcome (k tt w)) (final (k tt w)) (e :: trace (k tt w)).
Proof. reflexivity. Qed.

Lemma run_bind_modify {A : Type} (g : World -> World) (k : unit -> M A) (w : World) :
  (modify g ≫= k) w = k tt (g w).
Proof. unfold mbind, M_bind, modify. cbn. destruct (k tt (g w)); reflexivity. Qed.

(** One step of a proof that a handler keeps an invariant: the shape of
    the program decides the rule. *)
Ltac keeps_step :=
  lazymatch goal with
  | |- keeps _ _ (_ ≫= _) => apply keeps_bind; [| intros ?]
  | |- keeps _ _ (mret _) => apply keeps_ret
  | |- keeps _ _ (gets _) => apply keeps_gets
  | |- keeps _ _ (raise _) => apply keeps_raise
  | |- keeps _ _ (attempt _) => apply keeps_attempt
  | |- keeps _ _ (emit _) => apply keeps_emit
  | |- keeps _ _ (log _ _ _) => apply keeps_emit
  | |- keeps _ _ (modify _) => apply keeps_modify
  | |- keeps _ _ (await ?r) => unfold await; destruct r
  | |- keeps _ _ (unpack3 ?v) => unfold unpack3; destruct (Py.unpack3 v)
  | |- keeps _ _ (match ?x with _ => _ end) => destruct x
  end.

Ltac keeps_auto := repeat keeps_step.

(** The change leaves the part of the world the invariant reads alone. *)
Ltac untouched := let H := fresh in intros ? H; exact H.

(** *** Shutdown *)

Lemma on_connect_begin_quiet : keeps not_reconnecting no_reconnect on_connect_begin.
Proof.
  unfold on_connect_begin, add_callback, workers_clear_authorizations.
  keeps_auto; try discriminate; try untouched.
Qed.

Lemma on_disconnect_quiet : keeps not_reconnecting no_reconnect on_disconnect.
Proof.
  unfold on_disconnect, add_callback, MiningSubscription_disconnect_all,
    workers_clear_authorizations.
  keeps_auto; try discriminate; try untouched.
Qed.

Lemma fire_quiet cbs : keeps not_reconnecting no_reconnect (fire cbs).
Proof.
  induction cbs as [| cb rest IH]; cbn [fire].
  - apply keeps_ret.
  - apply keeps_bind; [| intros _; exact IH].
    destruct cb; cbn [run_callback].
    + apply on_connect_begin_quiet.
    + apply keeps_bind; [apply on_disconnect_quiet | intros; apply keeps_ret].
Qed.

Lemma take_callbacks_quiet ev : keeps not_reconnecting no_reconnect (take_callbacks ev).
Proof.
  unfold take_callbacks. keeps_auto.
  intros w Hw. destruct ev; exact Hw.
Qed.

Lemma connect_event_quiet : keeps not_reconnecting no_reconnect connect_event.
Proof.
  unfold connect_event. apply keeps_bind; [apply take_callbacks_quiet |].
  intros cbs. apply keeps_attempt, fire_quiet.
Qed.

Lemma disconnect_event_quiet : keeps not_reconnecting no_reconnect disconnect_event.
Proof.
  unfold disconnect_event. apply keeps_bind; [apply take_callbacks_quiet |].
  intros cbs. apply keeps_bind; [apply keeps_attempt, fire_quiet |].
  intros _. eapply hoare_bind; [apply hoare_gets |].
  intros again w [Hw Ha]. unfold not_reconnecting in Hw.
  rewrite Hw in Ha. subst again. cbn. split; [constructor | exact Hw].
Qed.

Lemma broadcast_quiet j cids : keeps not_reconnecting no_reconnect (broadcast j cids).
Proof.
  induction cids as [| cid rest IH]; cbn [broadcast].
  - apply keeps_ret.
  - apply keeps_bind; [apply keeps_emit; discriminate | intros _; exact IH].
Qed.

Lemma step_quiet e : keeps not_reconnecting no_reconnect (step e).
Proof.
  destruct e; cbn [step].
  - apply connect_event_quiet.
  - unfold on_connect_resume, job_registry_set_extranonce,
      StratumProxyService_set_extranonce, workers_authorize.
    keeps_auto; try discriminate; try untouched.
  - apply disconnect_event_quiet.
  - unfold on_shutdown. keeps_auto; [discriminate | reflexivity].
  - unfold on_job_notify. keeps_auto;
      try apply broadcast_quiet; try discriminate; try untouched.
  - unfold worker_subscribe. keeps_auto;
      try discriminate; try untouched.
  - unfold worker_authorize. keeps_auto;
      try discriminate; try untouched.
  - unfold worker_disconnect. keeps_auto; untouched.
  - unfold submit. keeps_auto; try discriminate; try untouched.
Qed.

Lemma run_quiet evs : keeps not_reconnecting no_reconnect (run evs).
Proof.
  induction evs as [| e rest IH]; cbn [run].
  - apply keeps_ret.
  - apply keeps_bind; [apply step_quiet | intros _; exact IH].
Qed.

(** Once [on_shutdown] has run, whatever events follow, the flag stays
    false and no reconnect attempt is made. *)
Lemma run_after_shutdown_quiet (w : World) (evs : list Event) :
  let r := run evs (final (on_shutdown w)) in
  Forall no_reconnect (trace r) /\ Factory.is_reconnecting (f (final r)) = false.
Proof.
  assert (H : not_reconnecting (final (on_shutdown w))) by reflexivity.
  split.
  - exact (keeps_trace _ _ _ _ (run_quiet evs) H).
  - exact (keeps_final _ _ _ _ (run_quiet evs) H).
Qed.

(** *** Idempotence of shutdown *)

(** Claim C7, as stated, fails: every call of [on_shutdown] writes its
    log line, so two calls in a row leave two lines where one call
    leaves one. *)
Lemma shutdown_twice_logs_twice : ~ shutdown_twice_as_once busy_world.
Proof. intros [_ H]. vm_compute in H. discriminate. Qed.

(** Claim C7, amended: two calls of [on_shutdown] in a row return
    normally and leave the same world as one call, which is the world
    before with [is_reconnecting] false and nothing else changed; the
    one effect of a call is its log line, written once by one call and
    twice by two. *)
Theorem shutdown_idempotent (w : World) :
  let once := on_shutdown w in
  let twice := (on_shutdown ;; on_shutdown) w in
  outcome once = Returned tt /\
  outcome twice = Returned tt /\
  final once = with_f (set_is_reconnecting false) w /\
  final twice = final once /\
  trace once = [ELog INFO "Shutting down proxy..." []] /\
  trace twice = [ELog INFO "Shutting down proxy..." [];
                 ELog INFO "Shutting down proxy..." []].
Proof. repeat split. Qed.

(** *** Upstream disconnect *)

Lemma clear_authorizations_all (r : WorkerRegistry) :
  map_Forall (fun _ k => authorized k = false) (workers_by_id (clear_authorizations r)).
Proof.
  intros cid k. cbn. rewrite lookup_fmap.
  destruct (workers_by_id r !! cid); cbn; [| discriminate].
  intros [= <-]. reflexivity.
Qed.

(** Claim C1, as stated, fails: [on_disconnect] makes no call on the job
    registry, so the job and the extranonce configuration of the lost
    session are still stored when it returns. *)
Lemma on_disconnect_keeps_job_and_extranonce : ~ disconnect_clears_everything busy_world.
Proof.
  intros (_ & _ & Hjob & _). vm_compute in Hjob. discriminate.
Qed.

(** Claim C1, amended: on every disconnect event [on_disconnect]
    returns normally, having within the one call hooked itself again,
    invalidated every downstream subscription and cleared every
    worker's authorization, in that order; the job registry, with its
    job and extranonce configuration, is left exactly as it was. *)
Theorem on_disconnect_clears_workers (w : World) :
  let r := on_disconnect w in
  outcome r = Returned (f (final r)) /\
  all_unauthorized (final r) /\
  subscriptions (listener (final r)) = ∅ /\
  job_registry (final r) = job_registry w /\
  service_extranonce (listener (final r)) = service_extranonce (listener w) /\
  trace r =
    [ELog INFO "Disconnected from Stratum pool at %s:%d"
       [VStr (Factory.main_host (f w)).1; VInt (Factory.main_host (f w)).2];
     EAddCallback OnDisconnect CbOnDisconnect;
     EDisconnectAll;
     EClearAuthorizations].
Proof.
  cbn. repeat split. apply clear_authorizations_all.
Qed.

(** *** Local rejection of shares *)

(** Claim C3: a share for a job that is not the registry's current job,
    or from a worker that is not authorized, is rejected with a reason,
    without any upstream call and without any change of state. *)
Theorem submit_rejected_locally (w : World) (s : ShareSubmission) (upstream : RpcOutcome) :
  current_job_id (job_registry w) <> Some (share_job_id s) \/
  is_authorized w (worker_id s) = false ->
  exists reason,
    submit s upstream w = MkRun (Returned (Rejected reason)) w [].
Proof.
  intros H. unfold submit. rewrite run_bind_gets. unfold id.
  destruct (is_authorized w (worker_id s)) eqn:Hauth; cbn [negb].
  - destruct H as [H | H]; [| discriminate].
    rewrite bool_decide_eq_false_2 by exact H. cbn [negb].
    eexists. reflexivity.
  - eexists. reflexivity.
Qed.

Lemma submit_rejected_locally_witness :
  (current_job_id (job_registry busy_world) <> Some (share_job_id (share 2 "J0")) \/
   is_authorized busy_world (worker_id (share 2 "J0")) = false) /\
  exists reason,
    submit (share 2 "J0") (RpcResult (VBool true)) busy_world =
    MkRun (Returned (Rejected reason)) busy_world [].
Proof.
  assert (H : current_job_id (job_registry busy_world)
              <> Some (share_job_id (share 2 "J0"))).
  { vm_compute. discriminate. }
  split; [left; exact H |].
  apply (submit_rejected_locally busy_world (share 2 "J0")). left. exact H.
Defined.

(** *** The SOCKS proxy setting *)

Lemma split_without_separator (sep : ascii) (s : string) :
  Py.str_contains sep s = false -> Py.split sep s = [s].
Proof.
  induction s as [| a rest IH]; cbn; [reflexivity |].
  destruct (Ascii.eqb a sep); [discriminate |].
  intros H. rewrite (IH H). reflexivity.
Qed.

Lemma split_length_separator (sep : ascii) (s : string) :
  (length (Py.split sep s) <? 2)%nat = false -> Py.str_contains sep s = true.
Proof.
  destruct (Py.str_contains sep s) eqn:H; [reflexivity |].
  rewrite (split_without_separator _ _ H). cbn. discriminate.
Qed.

(** *** The connect handshake *)

Lemma on_connect_resume_ok (w : World) (v d e1 e2s : value) :
  Py.unpack3 v = inl (d, e1, e2s) ->
  on_connect_resume (RpcResult v) w =
  MkRun (Returned (f w)) (installed (e1, e2s) w)
    (ESetExtranonce e1 e2s :: EServiceSetExtranonce e1 e2s :: authorize_trace (args w)).
Proof.
  intros H. unfold on_connect_resume, await, unpack3, authorize_trace.
  rewrite run_bind_ret, H.
  destruct w as [a f0 wr jr l]. destruct a. cbn [args custom_user].
  destruct custom_user0 as [[| c s] |]; reflexivity.
Qed.

Lemma on_connect_resume_fails (w : World) (reply : RpcOutcome) :
  completes reply = false ->
  final (on_connect_resume reply w) = w /\ trace (on_connect_resume reply w) = [].
Proof.
  intros H. unfold on_connect_resume, await, unpack3.
  destruct reply as [v | e]; cbn in H.
  - rewrite run_bind_ret.
    destruct (Py.unpack3 v); [discriminate | split; reflexivity].
  - split; reflexivity.
Qed.

Lemma on_connect_begin_run (w : World) :
  outcome (on_connect_begin w) = Returned tt /\
  trace (on_connect_begin w) = on_connect_begin_trace w /\
  args (final (on_connect_begin w)) = args w /\
  job_registry (final (on_connect_begin w)) = job_registry w /\
  listener (final (on_connect_begin w)) = listener w /\
  all_unauthorized (final (on_connect_begin w)).
Proof. cbn. repeat split. apply clear_authorizations_all. Qed.

(** Claim C10: when the subscribe reply unpacks, the resumed handler
    installs the one pair [(extranonce1, extranonce2_size)] it took from
    that reply first in the job registry and next, with nothing in
    between, in the listener service, so both hold the same pair when
    the handshake is over. *)
Theorem handshake_installs_same_extranonce (w : World) (v d e1 e2s : value) :
  Py.unpack3 v = inl (d, e1, e2s) ->
  let r := on_connect_resume (RpcResult v) w in
  outcome r = Returned (f (final r)) /\
  extranonce (job_registry (final r)) = Some (e1, e2s) /\
  service_extranonce (listener (final r)) = Some (e1, e2s) /\
  extranonce (job_registry (final r)) = service_extranonce (listener (final r)) /\
  take 2 (trace r) = [ESetExtranonce e1 e2s; EServiceSetExtranonce e1 e2s] /\
  drop 2 (trace r) = authorize_trace (args w).
Proof.
  intros H r. subst r. rewrite (on_connect_resume_ok w v d e1 e2s H).
  cbn. repeat split.
Qed.

Lemma handshake_installs_same_extranonce_witness :
  Py.unpack3 (VList [VList []; VStr "08000002"; VInt 32]) =
    inl (VList [], VStr "08000002", VInt 32) /\
  extranonce (job_registry (final (on_connect_resume reply1 busy_world))) =
  service_extranonce (listener (final (on_connect_resume reply1 busy_world))).
Proof.
  split; [reflexivity |].
  apply (handshake_installs_same_extranonce busy_world
           (VList [VList []; VStr "08000002"; VInt 32])
           (VList []) (VStr "08000002") (VInt 32)).
  reflexivity.
Defined.

Lemma on_connect_trace (w : World) (reply : RpcOutcome) :
  trace (on_connect reply w) =
    (on_connect_begin_trace w ++
     trace (on_connect_resume reply (final (on_connect_begin w))))%list.
Proof.
  unfold on_connect.
  destruct (on_connect_begin_run w) as (Ho & Ht & _).
  unfold mbind, M_bind. rewrite <- Ht.
  destruct (on_connect_begin w) as [[[] | e] w1 t1]; [reflexivity | discriminate].
Qed.

(** Claim C8, as stated, fails: with an override configured, a connect
    event whose subscribe call fails ends [on_connect] at line 92,
    before the authorize call of line 98. *)
Lemma no_authorize_when_subscribe_fails :
  ~ authorize_on_every_connect custom_world (RpcFailure (Py.RemoteError "timeout")).
Proof.
  intros H. assert (Hu : Py.opt_truthy (custom_user (args custom_world)) = true)
    by (vm_compute; reflexivity).
  specialize (H Hu). vm_compute in H. discriminate.
Qed.

(** Claim C8, amended: [on_connect] makes the [workers.authorize] call
    exactly when [args.custom_user] is set and the subscribe reply
    unpacks, and then once, with [args.custom_user] and
    [args.custom_password]; when the subscribe call fails or its reply
    does not unpack, or when no override is set, it makes none. *)
Theorem override_authorized_on_connect (w : World) (reply : RpcOutcome) :
  authorize_calls (trace (on_connect reply w)) =
    (if completes reply && Py.opt_truthy (custom_user (args w))
     then [(default "" (custom_user (args w)), custom_password (args w))]
     else []).
Proof.
  rewrite on_connect_trace. unfold authorize_calls. rewrite omap_app.
  cbn [on_connect_begin_trace omap app].
  destruct (on_connect_begin_run w) as (_ & _ & Ha & _).
  destruct (completes reply) eqn:Hc; cbn [andb].
  - destruct reply as [v | e]; [| discriminate].
    cbn in Hc. destruct (Py.unpack3 v) as [[[d e1] e2s] |] eqn:Hv; [| discriminate].
    rewrite (on_connect_resume_ok _ v d e1 e2s Hv). cbn [trace omap].
    rewrite Ha. unfold authorize_trace.
    destruct (Py.opt_truthy (custom_user (args w))); reflexivity.
  - rewrite (proj2 (on_connect_resume_fails _ reply Hc)). reflexivity.
Qed.

(** *** The handlers stay hooked *)

Lemma Forall_any_effect (t : list Effect) : Forall any_effect t.
Proof. apply Forall_true. intros e. exact I. Qed.

Lemma initial_world_hooked (env : Env) (a : Args) : hooked (initial_world env a).
Proof. split; reflexivity. Qed.

Lemma connect_event_hooked (w : World) :
  hooked w ->
  connect_event w =
  MkRun (Returned tt) (final (on_connect_begin
                                (with_f (fun x =>
                                   {| Factory.main_host := Factory.main_host x;
                                      Factory.is_reconnecting := Factory.is_reconnecting x;
                                      Factory.on_connect := [];
                                      Factory.on_disconnect := Factory.on_disconnect x |}) w)))
    (on_connect_begin_trace w).
Proof.
  intros [Hc Hd]. destruct w as [a f0 wr jr l]. destruct f0 as [h rc oc od].
  cbn in Hc, Hd. subst oc od. reflexivity.
Qed.

Lemma disconnect_event_hooked (w : World) :
  hooked w ->
  disconnect_event w =
  MkRun (Returned tt)
    (final (on_disconnect
              (with_f (fun x =>
                 {| Factory.main_host := Factory.main_host x;
                    Factory.is_reconnecting := Factory.is_reconnecting x;
                    Factory.on_connect := Factory.on_connect x;
                    Factory.on_disconnect := [] |}) w)))
    (trace (on_disconnect w) ++
     (if Factory.is_reconnecting (f w) then [EReconnect] else []))%list.
Proof.
  intros [Hc Hd]. destruct w as [a f0 wr jr l]. destruct f0 as [h rc oc od].
  cbn in Hc, Hd. subst oc od. destruct rc; reflexivity.
Qed.

Lemma broadcast_hooked j cids : keeps hooked any_effect (broadcast j cids).
Proof.
  induction cids as [| cid rest IH]; cbn [broadcast].
  - apply keeps_ret.
  - apply keeps_bind; [apply keeps_emit; exact I | intros _; exact IH].
Qed.

Lemma step_hooked e : keeps hooked any_effect (step e).
Proof.
  destruct e; cbn [step].
  - intros w Hw. split; [apply Forall_any_effect |].
    rewrite (connect_event_hooked w Hw). cbn [outcome final].
    destruct Hw as [Hc Hd]. split; cbn; [reflexivity | exact Hd].
  - unfold on_connect_resume, job_registry_set_extranonce,
      StratumProxyService_set_extranonce, workers_authorize.
    keeps_auto; try exact I; try untouched.
  - intros w Hw. split; [apply Forall_any_effect |].
    rewrite (disconnect_event_hooked w Hw). cbn [outcome final].
    destruct Hw as [Hc Hd]. split; cbn; [exact Hc | reflexivity].
  - unfold on_shutdown. keeps_auto; [exact I | untouched].
  - unfold on_job_notify. keeps_auto;
      try apply broadcast_hooked; try exact I; try untouched.
  - unfold worker_subscribe. keeps_auto; try exact I; try untouched.
  - unfold worker_authorize. keeps_auto; try exact I; try untouched.
  - unfold worker_disconnect. keeps_auto; untouched.
  - unfold submit. keeps_auto; try exact I; try untouched.
Qed.

Lemma run_hooked evs : keeps hooked any_effect (run evs).
Proof.
  induction evs as [| e rest IH]; cbn [run].
  - apply keeps_ret.
  - apply keeps_bind; [apply step_hooked | intros _; exact IH].
Qed.

(** Claim C6, as stated, fails: after [on_shutdown] a disconnect event
    still runs the hooked [on_disconnect], which logs, hooks itself
    again, disconnects the miners and clears the authorizations. *)
Lemma disconnect_after_shutdown_still_handled : ~ silent_after_shutdown busy_world.
Proof. unfold silent_after_shutdown. vm_compute. discriminate. Qed.

(** Claim C6, amended: once [on_shutdown] has run, at any moment after
    start-up and whatever events follow, the factory's
    [is_reconnecting] flag stays false and no reconnect attempt is
    made; a disconnect event at any later moment still runs
    [on_disconnect], whose four effects (the log line, the re-hook,
    [disconnect_all], [clear_authorizations]) are then all that
    happens. *)
Theorem shutdown_stops_reconnecting (env : Env) (a : Args) (before after : list Event) :
  let w := final (on_shutdown (final (run before (initial_world env a)))) in
  let r := run after w in
  Forall no_reconnect (trace r) /\
  Factory.is_reconnecting (f (final r)) = false /\
  trace (step EvDisconnect (final r)) =
    [ELog INFO "Disconnected from Stratum pool at %s:%d"
       [VStr (Factory.main_host (f (final r))).1;
        VInt (Factory.main_host (f (final r))).2];
     EAddCallback OnDisconnect CbOnDisconnect;
     EDisconnectAll;
     EClearAuthorizations].
Proof.
  intros w r.
  destruct (run_after_shutdown_quiet (final (run before (initial_world env a))) after)
    as [Ht Hf].
  fold w in Ht, Hf. fold r in Ht, Hf.
  assert (H0 : hooked (final (run before (initial_world env a)))).
  { exact (keeps_final _ _ _ _ (run_hooked before) (initial_world_hooked env a)). }
  assert (H1 : hooked w).
  { exact (keeps_final _ _ _ _ (step_hooked EvShutdown) H0). }
  assert (H2 : hooked (final r)).
  { exact (keeps_final _ _ _ _ (run_hooked after) H1). }
  split; [exact Ht |]. split; [exact Hf |].
  cbn [step]. rewrite (disconnect_event_hooked _ H2). cbn [trace].
  rewrite Hf. rewrite app_nil_r. reflexivity.
Qed.

(** Claim C5: at any moment after start-up, whatever events came
    before, a connect event runs the handshake again: the handler hooks
    itself for the next connect, clears every worker's authorization and
    issues [mining.subscribe]; when the reply unpacks it installs the
    pair taken from it as the extranonce configuration; the effects
    come in exactly this order, and the handler is hooked afterwards. *)
Theorem handshake_on_every_connect (env : Env) (a : Args) (evs : list Event)
    (v d e1 e2s : value) :
  Py.unpack3 v = inl (d, e1, e2s) ->
  let w := final (run evs (initial_world env a)) in
  let begun := step EvConnect w in
  let done := step (EvSubscribeReply (RpcResult v)) (final begun) in
  (trace begun ++ trace done)%list =
    ([ELog INFO "Connected to Stratum pool at %s:%d"
        [VStr (Factory.main_host (f w)).1; VInt (Factory.main_host (f w)).2];
      EAddCallback OnConnect CbOnConnect;
      EClearAuthorizations;
      ELog INFO "Subscribing for mining jobs" [];
      ERpc "mining.subscribe" [];
      ESetExtranonce e1 e2s;
      EServiceSetExtranonce e1 e2s] ++ authorize_trace (args w))%list /\
  all_unauthorized (final begun) /\
  extranonce (job_registry (final done)) = Some (e1, e2s) /\
  hooked (final begun) /\ hooked (final done).
Proof.
  intros Hv w begun done.
  assert (Hw : hooked w).
  { exact (keeps_final _ _ _ _ (run_hooked evs) (initial_world_hooked env a)). }
  assert (Hb : hooked (final begun)).
  { exact (keeps_final _ _ _ _ (step_hooked EvConnect) Hw). }
  subst begun done. cbn [step] in *.
  rewrite (connect_event_hooked w Hw) in *. cbn [final trace] in *.
  unfold attempt. cbn [final trace].
  rewrite (on_connect_resume_ok _ v d e1 e2s Hv). cbn [final trace].
  repeat split.
  - apply clear_authorizations_all.
  - apply Hb.
  - apply Hb.
Qed.

Lemma handshake_on_every_connect_witness :
  Py.unpack3 (VList [VList []; VStr "08000002"; VInt 32]) =
    inl (VList [], VStr "08000002", VInt 32) /\
  extranonce (job_registry
    (final (step (EvSubscribeReply reply1)
       (final (step EvConnect
          (final (run (busy_events ++ [EvDisconnect])
                    (initial_world env1 default_args)))))))) =
  Some (VStr "08000002", VInt 32).
Proof.
  split; [reflexivity |].
  apply (handshake_on_every_connect env1 default_args (busy_events ++ [EvDisconnect])
           (VList [VList []; VStr "08000002"; VInt 32])
           (VList []) (VStr "08000002") (VInt 32)).
  reflexivity.
Defined.

(** *** Disjoint extranonce2 ranges *)

Lemma separated_sym (a b : Range) : separated a b -> separated b a.
Proof. unfold separated. tauto. Qed.

Lemma separated_disjoint (a b : Range) (x : N) :
  separated a b -> in_range x a -> in_range x b -> False.
Proof. unfold separated, in_range. lia. Qed.

Lemma alloc_inv_disjoint (r : WorkerRegistry) : alloc_inv r -> pairwise_disjoint r.
Proof.
  intros H c1 c2 k1 k2 x Hne H1 H2.
  apply separated_disjoint. exact (live_live r H c1 c2 k1 k2 Hne H1 H2).
Qed.

Lemma alloc_inv_fresh (width : N) :
  alloc_inv {| workers_by_id := ∅; slice_width := width;
               next_start := 0; free_ranges := [] |}.
Proof. constructor; cbn; intros; simplify_map_eq; simplify_eq. Qed.

(** A change of the worker entries that keeps every range. *)
Lemma alloc_inv_same_ranges (r : WorkerRegistry) (g : gmap N Worker -> gmap N Worker) :
  (forall c k', g (workers_by_id r) !! c = Some k' ->
     exists k, workers_by_id r !! c = Some k /\
               extranonce2_range k' = extranonce2_range k) ->
  alloc_inv r -> alloc_inv (with_workers_by_id g r).
Proof.
  intros Hg H. constructor; cbn.
  - intros c k' Hk. destruct (Hg c k' Hk) as (k & Hk0 & ->).
    exact (live_below r H c k Hk0).
  - exact (free_below r H).
  - intros c1 c2 k1' k2' Hne H1 H2.
    destruct (Hg c1 k1' H1) as (k1 & Hk1 & ->).
    destruct (Hg c2 k2' H2) as (k2 & Hk2 & ->).
    exact (live_live r H c1 c2 k1 k2 Hne Hk1 Hk2).
  - exact (free_free r H).
  - intros c k' i rg Hk Hi. destruct (Hg c k' Hk) as (k & Hk0 & ->).
    exact (live_free r H c k i rg Hk0 Hi).
Qed.

Lemma alloc_inv_clear_authorizations (r : WorkerRegistry) :
  alloc_inv r -> alloc_inv (clear_authorizations r).
Proof.
  apply alloc_inv_same_ranges. intros c k' Hk.
  apply lookup_fmap_Some in Hk as (k & <- & Hk). eauto.
Qed.

Lemma alloc_inv_present (r : WorkerRegistry) (cid : N) (user password : string) (b : bool) :
  alloc_inv r ->
  alloc_inv (with_workers_by_id (alter (present user password b) cid) r).
Proof.
  apply alloc_inv_same_ranges. intros c k' Hk.
  apply lookup_alter_Some in Hk as [(<- & k & Hk & ->) | (Hne & Hk)]; eauto.
Qed.

Lemma alloc_inv_allocate (bound : N) (r r1 : WorkerRegistry) (rg : Range) :
  alloc_inv r -> allocate bound r = Some (rg, r1) ->
  alloc_inv r1 /\
  workers_by_id r1 = workers_by_id r /\
  (rg.2 <= next_start r1)%N /\
  (forall c k, workers_by_id r !! c = Some k -> separated (extranonce2_range k) rg) /\
  (forall (i : nat) rg', free_ranges r1 !! i = Some rg' -> separated rg rg').
Proof.
  intros H. unfold allocate.
  destruct (free_ranges r) as [| hd rest] eqn:Hfree.
  - destruct (next_start r + slice_width r <=? bound)%N; [| discriminate].
    intros [= <- <-]. cbn. refine (conj _ (conj eq_refl (conj _ (conj _ _)))).
    + constructor; cbn.
      * intros c k Hk. pose proof (live_below r H c k Hk). lia.
      * intros i rg'. rewrite lookup_nil. discriminate.
      * exact (live_live r H).
      * intros i j r1 r2 _. rewrite lookup_nil. discriminate.
      * intros c k i rg' _. rewrite lookup_nil. discriminate.
    + lia.
    + intros c k Hk. left. cbn. exact (live_below r H c k Hk).
    + intros i rg'. rewrite lookup_nil. discriminate.
  - intros [= <- <-]. cbn. refine (conj _ (conj eq_refl (conj _ (conj _ _)))).
    + constructor; cbn.
      * exact (live_below r H).
      * intros i rg' Hi. apply (free_below r H (S i)). rewrite Hfree. exact Hi.
      * exact (live_live r H).
      * intros i j r1 r2 Hne Hi Hj.
        apply (free_free r H (S i) (S j)); [lia | |]; rewrite Hfree; assumption.
      * intros c k i rg' Hk Hi.
        apply (live_free r H c k (S i)); [exact Hk |]. rewrite Hfree. exact Hi.
    + apply (free_below r H 0%nat). rewrite Hfree. reflexivity.
    + intros c k Hk. apply (live_free r H c k 0%nat); [exact Hk |].
      rewrite Hfree. reflexivity.
    + intros i rg' Hi.
      apply (free_free r H 0%nat (S i)); [lia | |]; rewrite Hfree; [reflexivity | exact Hi].
Qed.

Lemma alloc_inv_register (cid bound : N) (r r' : WorkerRegistry) (rg : Range) :
  alloc_inv r -> register cid bound r = Some (rg, r') -> alloc_inv r'.
Proof.
  intros H. unfold register.
  destruct (workers_by_id r !! cid) as [k |] eqn:Hcid.
  - intros [= _ <-]. exact H.
  - destruct (allocate bound r) as [[rg1 r1] |] eqn:Halloc; [| discriminate].
    cbn. intros [= <- <-].
    destruct (alloc_inv_allocate bound r r1 rg1 H Halloc)
      as (H1 & Hsame & Hbelow & Hlive & Hfree).
    constructor; cbn.
    + intros c k Hk. apply lookup_insert_Some in Hk as [[<- <-] | [Hne Hk]].
      * exact Hbelow.
      * exact (live_below r1 H1 c k Hk).
    + exact (free_below r1 H1).
    + intros c1 c2 k1 k2 Hne Hk1 Hk2.
      apply lookup_insert_Some in Hk1 as [[<- <-] | [Hne1 Hk1]];
        apply lookup_insert_Some in Hk2 as [[<- <-] | [Hne2 Hk2]]; cbn.
      * contradiction.
      * apply separated_sym, (Hlive c2). rewrite <- Hsame. exact Hk2.
      * apply (Hlive c1). rewrite <- Hsame. exact Hk1.
      * exact (live_live r1 H1 c1 c2 k1 k2 Hne Hk1 Hk2).
    + exact (free_free r1 H1).
    + intros c k i rg' Hk Hi.
      apply lookup_insert_Some in Hk as [[<- <-] | [Hne Hk]]; cbn.
      * exact (Hfree i rg' Hi).
      * exact (live_free r1 H1 c k i rg' Hk Hi).
Qed.

Lemma alloc_inv_deregister (cid : N) (r : WorkerRegistry) :
  alloc_inv r -> alloc_inv (deregister cid r).
Proof.
  intros H. unfold deregister.
  destruct (workers_by_id r !! cid) as [k0 |] eqn:Hcid; [| exact H].
  constructor; cbn.
  - intros c k Hk. apply lookup_delete_Some in Hk as [_ Hk].
    exact (live_below r H c k Hk).
  - intros [| i] rg; cbn.
    + intros [= <-]. exact (live_below r H cid k0 Hcid).
    + exact (free_below r H i rg).
  - intros c1 c2 k1 k2 Hne Hk1 Hk2.
    apply lookup_delete_Some in Hk1 as [_ Hk1].
    apply lookup_delete_Some in Hk2 as [_ Hk2].
    exact (live_live r H c1 c2 k1 k2 Hne Hk1 Hk2).
  - intros [| i] [| j] r1 r2 Hne; cbn.
    + contradiction.
    + intros [= <-] Hj. exact (live_free r H cid k0 j r2 Hcid Hj).
    + intros Hi [= <-]. apply separated_sym.
      exact (live_free r H cid k0 i r1 Hcid Hi).
    + apply (free_free r H i j). lia.
  - intros c k [| i] rg Hk; apply lookup_delete_Some in Hk as [Hne Hk]; cbn.
    + intros [= <-]. exact (live_live r H c cid k k0 (not_eq_sym Hne) Hk Hcid).
    + exact (live_free r H c k i rg Hk).
Qed.

Ltac ranges_side :=
  first
    [ exact I
    | untouched
    | let H := fresh in
      intros ? H; first
        [ exact (alloc_inv_clear_authorizations _ H)
        | exact (alloc_inv_present _ _ _ _ _ H)
        | exact (alloc_inv_deregister _ _ H) ] ].

Lemma on_connect_begin_ranges : keeps ranges_kept any_effect on_connect_begin.
Proof.
  unfold on_connect_begin, add_callback, workers_clear_authorizations.
  keeps_auto; ranges_side.
Qed.

Lemma on_disconnect_ranges : keeps ranges_kept any_effect on_disconnect.
Proof.
  unfold on_disconnect, add_callback, MiningSubscription_disconnect_all,
    workers_clear_authorizations.
  keeps_auto; ranges_side.
Qed.

Lemma fire_ranges cbs : keeps ranges_kept any_effect (fire cbs).
Proof.
  induction cbs as [| cb rest IH]; cbn [fire].
  - apply keeps_ret.
  - apply keeps_bind; [| intros _; exact IH].
    destruct cb; cbn [run_callback].
    + apply on_connect_begin_ranges.
    + apply keeps_bind; [apply on_disconnect_ranges | intros; apply keeps_ret].
Qed.

Lemma broadcast_ranges j cids : keeps ranges_kept any_effect (broadcast j cids).
Proof.
  induction cids as [| cid rest IH]; cbn [broadcast].
  - apply keeps_ret.
  - apply keeps_bind; [apply keeps_emit; exact I | intros _; exact IH].
Qed.

Lemma worker_subscribe_ranges cid : keeps ranges_kept any_effect (worker_subscribe cid).
Proof.
  intros w Hw. split; [apply Forall_any_effect |].
  unfold worker_subscribe. rewrite run_bind_gets.
  destruct (service_extranonce (listener w)) as [c |]; [| exact Hw].
  rewrite run_bind_gets.
  destruct (space_bound c) as [bound |]; cbn [mbind option_bind]; [| exact Hw].
  destruct (register cid bound (workers w)) as [[rg r1] |] eqn:Hreg; [| exact Hw].
  cbn. exact (alloc_inv_register cid bound (workers w) r1 rg Hw Hreg).
Qed.

Lemma step_ranges e : keeps ranges_kept any_effect (step e).
Proof.
  destruct e; cbn [step].
  - unfold connect_event, take_callbacks. keeps_auto; try ranges_side.
    apply fire_ranges.
  - unfold on_connect_resume, job_registry_set_extranonce,
      StratumProxyService_set_extranonce, workers_authorize.
    keeps_auto; ranges_side.
  - unfold disconnect_event, take_callbacks. keeps_auto; try ranges_side.
    apply fire_ranges.
  - unfold on_shutdown. keeps_auto; ranges_side.
  - unfold on_job_notify. keeps_auto; try apply broadcast_ranges; ranges_side.
  - apply keeps_attempt, worker_subscribe_ranges.
  - unfold worker_authorize. keeps_auto; ranges_side.
  - unfold worker_disconnect. keeps_auto; ranges_side.
  - unfold submit. keeps_auto; ranges_side.
Qed.

Lemma run_ranges evs : keeps ranges_kept any_effect (run evs).
Proof.
  induction evs as [| e rest IH]; cbn [run].
  - apply keeps_ret.
  - apply keeps_bind; [apply step_ranges | intros _; exact IH].
Qed.

(** Claim C2: from start-up on, after any sequence of events (miners
    subscribing, leaving, authorizing, the pool connecting and
    disconnecting), no extranonce2 value lies in the ranges of two
    workers registered at the same time. *)
Theorem ranges_pairwise_disjoint (env : Env) (a : Args) (evs : list Event) :
  pairwise_disjoint (workers (final (run evs (initial_world env a)))).
Proof.
  apply alloc_inv_disjoint.
  apply (keeps_final _ _ _ _ (run_ranges evs)).
  apply alloc_inv_fresh.
Qed.

Lemma ranges_pairwise_disjoint_witness :
  (1%N <> 2%N /\
   extranonce2_range <$> workers_by_id (workers busy_world) !! 1%N = Some (0%N, 1000%N) /\
   extranonce2_range <$> workers_by_id (workers busy_world) !! 2%N = Some (1000%N, 2000%N)) /\
  pairwise_disjoint (workers busy_world).
Proof.
  split; [repeat split; [discriminate | vm_compute; reflexivity ..] |].
  exact (ranges_pairwise_disjoint env1 default_args busy_events).
Defined.

(** A freed range goes to the next miner that subscribes. *)
Example range_reused_after_deregister :
  extranonce2_range <$>
    workers_by_id (workers (final (run [EvWorkerDisconnect 1; EvWorkerSubscribe 3]
                                     busy_world))) !! 3%N
  = Some (0%N, 1000%N).
Proof. vm_compute. reflexivity. Qed.

(** *** The barrier after a disconnect *)

Lemma barred_not_authorized (a : Args) (w : World) (cid : N) :
  barred a w -> is_authorized w cid = false.
Proof.
  intros [_ H]. unfold is_authorized.
  destruct (workers_by_id (workers w) !! cid) as [k |] eqn:Hk; [| reflexivity].
  exact (H cid k Hk).
Qed.

Lemma filter_none {A : Type} (p : A -> bool) (l : list A) :
  (forall x, p x = false) -> List.filter p l = [].
Proof.
  intros H. induction l as [| x l IH]; cbn; [reflexivity |].
  rewrite (H x). exact IH.
Qed.

Lemma barred_no_recipients (a : Args) (w : World) : barred a w -> recipients w = [].
Proof.
  intros H. unfold recipients. apply filter_none. intros cid.
  unfold receives. rewrite (barred_not_authorized a w cid H). reflexivity.
Qed.

Lemma barred_cleared (a : Args) (w : World) :
  args w = a -> barred a (with_workers clear_authorizations w).
Proof. intros H. split; [exact H | apply clear_authorizations_all]. Qed.

Ltac barred_side :=
  first
    [ exact I
    | untouched
    | let H := fresh in
      intros ? H; exact (barred_cleared _ _ (proj1 H)) ].

Lemma on_connect_begin_barred a : keeps (barred a) no_delivery on_connect_begin.
Proof.
  unfold on_connect_begin, add_callback, workers_clear_authorizations.
  keeps_auto; barred_side.
Qed.

Lemma on_disconnect_barred a : keeps (barred a) no_delivery on_disconnect.
Proof.
  unfold on_disconnect, add_callback, MiningSubscription_disconnect_all,
    workers_clear_authorizations.
  keeps_auto; barred_side.
Qed.

Lemma fire_barred a cbs : keeps (barred a) no_delivery (fire cbs).
Proof.
  induction cbs as [| cb rest IH]; cbn [fire].
  - apply keeps_ret.
  - apply keeps_bind; [| intros _; exact IH].
    destruct cb; cbn [run_callback].
    + apply on_connect_begin_barred.
    + apply keeps_bind; [apply on_disconnect_barred | intros; apply keeps_ret].
Qed.

Lemma register_unauthorized (cid bound : N) (r r' : WorkerRegistry) (rg : Range) :
  map_Forall (fun _ k => authorized k = false) (workers_by_id r) ->
  register cid bound r = Some (rg, r') ->
  map_Forall (fun _ k => authorized k = false) (workers_by_id r').
Proof.
  intros H. unfold register.
  destruct (workers_by_id r !! cid) as [k |]; [intros [= _ <-]; exact H |].
  unfold allocate.
  destruct (free_ranges r) as [| hd rest];
    [destruct (next_start r + slice_width r <=? bound)%N; [| discriminate] |];
    cbn; intros [= <- <-]; cbn; apply map_Forall_insert_2; auto.
Qed.

Lemma worker_subscribe_barred a cid : keeps (barred a) no_delivery (worker_subscribe cid).
Proof.
  intros w Hw. unfold worker_subscribe. rewrite run_bind_gets.
  destruct (service_extranonce (listener w)) as [c |];
    [| split; [constructor | exact Hw]].
  rewrite run_bind_gets.
  destruct (space_bound c) as [bound |]; cbn [mbind option_bind];
    [| split; [constructor | exact Hw]].
  destruct (register cid bound (workers w)) as [[rg r1] |] eqn:Hreg;
    [| split; [constructor | exact Hw]].
  cbn. split; [constructor |]. destruct Hw as [Ha Hu]. split; [exact Ha |].
  exact (register_unauthorized cid bound (workers w) r1 rg Hu Hreg).
Qed.

Lemma worker_authorize_barred a cid user password upstream :
  no_new_authorization a (EvWorkerAuthorize cid user password upstream) = true ->
  keeps (barred a) no_delivery (worker_authorize cid user password upstream).
Proof.
  intros Hq w Hw. unfold worker_authorize. rewrite run_bind_gets.
  destruct Hw as [Ha Hu]. rewrite Ha. cbn in Hq.
  destruct (override a); [discriminate |].
  rewrite run_bind_emit. cbn [outcome final trace].
  destruct upstream as [v | e]; cbn [await].
  - rewrite run_bind_ret, run_bind_modify. cbn.
    split; [repeat constructor |]. split; [exact Ha |].
    apply negb_true_iff in Hq. rewrite Hq.
    intros c k Hk. cbn in Hk.
    apply lookup_alter_Some in Hk as [(<- & k0 & Hk0 & ->) | (Hne & Hk)].
    + reflexivity.
    + exact (Hu c k Hk).
  - cbn. split; [repeat constructor |]. split; assumption.
Qed.

Lemma worker_disconnect_barred a cid : keeps (barred a) no_delivery (worker_disconnect cid).
Proof.
  unfold worker_disconnect. keeps_auto; try untouched.
  intros w [Ha Hu]. split; [exact Ha |]. unfold all_unauthorized. cbn.
  unfold deregister. destruct (workers_by_id (workers w) !! cid); [| exact Hu].
  cbn. apply map_Forall_delete, Hu.
Qed.

Lemma on_job_notify_barred a j : keeps (barred a) no_delivery (on_job_notify j).
Proof.
  intros w Hw. unfold on_job_notify.
  rewrite run_bind_gets, run_bind_modify, run_bind_gets.
  assert (Hw' : barred a (with_job_registry (store_job j) w)) by exact Hw.
  assert (Hb : (if extranonce (job_registry (with_job_registry (store_job j) w))
                is Some _ then cids ← gets recipients; broadcast j cids
                else mret tt) (with_job_registry (store_job j) w) =
               MkRun (Returned tt) (with_job_registry (store_job j) w) []).
  { destruct (extranonce (job_registry (with_job_registry (store_job j) w)));
      [| reflexivity].
    rewrite run_bind_gets, (barred_no_recipients a _ Hw'). reflexivity. }
  rewrite (run_bind_eq _ _ _ _ _ _ Hb). cbn [app outcome final trace].
  rewrite run_bind_gets.
  destruct (current_job (job_registry w)) as [p |].
  - destruct (Py.str_truthy _ && negb _);
      cbn; (split; [repeat constructor | exact Hw']).
  - cbn. split; [constructor | exact Hw'].
Qed.

Lemma submit_barred a s upstream (w : World) :
  barred a w ->
  submit s upstream w = MkRun (Returned (Rejected "unauthorized")) w [].
Proof.
  intros Hw. unfold submit. rewrite run_bind_gets. unfold id.
  rewrite (barred_not_authorized a w (worker_id s) Hw). reflexivity.
Qed.

Lemma step_barred a e :
  no_new_authorization a e = true -> keeps (barred a) no_delivery (step e).
Proof.
  intros Hq. destruct e; cbn [step].
  - unfold connect_event, take_callbacks. keeps_auto; try barred_side.
    apply fire_barred.
  - unfold on_connect_resume, job_registry_set_extranonce,
      StratumProxyService_set_extranonce, workers_authorize.
    keeps_auto; barred_side.
  - unfold disconnect_event, take_callbacks. keeps_auto; try barred_side.
    apply fire_barred.
  - unfold on_shutdown. keeps_auto; barred_side.
  - apply on_job_notify_barred.
  - apply keeps_attempt, worker_subscribe_barred.
  - apply keeps_attempt, worker_authorize_barred, Hq.
  - apply worker_disconnect_barred.
  - intros w Hw. unfold attempt, mbind, M_bind.
    rewrite (submit_barred a s upstream w Hw). cbn.
    split; [repeat constructor | exact Hw].
Qed.

Lemma run_barred a evs :
  Forall (fun e => no_new_authorization a e = true) evs ->
  keeps (barred a) no_delivery (run evs).
Proof.
  induction 1 as [| e rest He _ IH]; cbn [run].
  - apply keeps_ret.
  - apply keeps_bind; [apply step_barred, He | intros _; exact IH].
Qed.

(** Claim C4, as stated, fails: with an identity override a miner's
    authorization succeeds locally at any time, so a miner that comes
    back while the subscribe call is still pending is sent the next job
    and has its share accepted before the handshake completes. *)
Lemma authorization_inside_interval_lifts_barrier :
  ~ barrier_holds custom_world comeback_events.
Proof.
  intros H. specialize (H eq_refl).
  assert (Hin : In (ENotifyWorker 1 job2)
                  (trace (run (EvDisconnect :: comeback_events) custom_world))).
  { vm_compute. tauto. }
  apply Forall_forall with (x := ENotifyWorker 1 job2) in H.
  - exact H.
  - apply list_elem_of_In. exact Hin.
Qed.

(** Claim C4, amended: at any moment after start-up, a disconnect event
    leaves every worker's [authorized] flag false, and so does a
    connect event, which clears them before it subscribes.  From a
    disconnect on, through whatever follows (further disconnects, the
    next connect and its handshake, jobs arriving, shares submitted),
    as long as no miner's authorization succeeds, the flags stay
    false, no job reaches a miner and no share is accepted. *)
Theorem no_delivery_after_disconnect (env : Env) (a : Args) (before after : list Event) :
  let w := final (run before (initial_world env a)) in
  all_unauthorized (final (step EvDisconnect w)) /\
  all_unauthorized (final (step EvConnect w)) /\
  (Forall (fun e => no_new_authorization (args w) e = true) after ->
   let r := run (EvDisconnect :: after) w in
   Forall no_delivery (trace r) /\ all_unauthorized (final r)).
Proof.
  intros w.
  assert (Hw : hooked w).
  { exact (keeps_final _ _ _ _ (run_hooked before) (initial_world_hooked env a)). }
  split; [| split].
  - cbn [step]. rewrite (disconnect_event_hooked w Hw). cbn [final].
    apply clear_authorizations_all.
  - cbn [step]. rewrite (connect_event_hooked w Hw). cbn [final].
    apply clear_authorizations_all.
  - intros Hafter r. subst r. cbn [run step].
    rewrite (run_bind_eq _ _ _ _ _ _ (disconnect_event_hooked w Hw)).
    cbn [outcome final trace].
    set (w1 := final (on_disconnect _)).
    assert (H1 : barred (args w) w1).
    { split; [reflexivity | apply clear_authorizations_all]. }
    split.
    + apply Forall_app. split.
      * destruct (Factory.is_reconnecting (f w)); cbn; repeat constructor.
      * exact (keeps_trace _ _ _ _ (run_barred (args w) after Hafter) H1).
    + exact (proj2 (keeps_final _ _ _ _ (run_barred (args w) after Hafter) H1)).
Qed.

Lemma no_delivery_after_disconnect_witness :
  Forall (fun e => no_new_authorization
                     (args (final (run busy_events (initial_world env1 default_args)))) e
                   = true) interval_events /\
  Forall no_delivery
    (trace (run (EvDisconnect :: interval_events)
              (final (run busy_events (initial_world env1 default_args))))).
Proof.
  assert (H : Forall (fun e => no_new_authorization
                 (args (final (run busy_events (initial_world env1 default_args)))) e
               = true) interval_events).
  { unfold interval_events. repeat constructor. }
  split; [exact H |].
  exact (proj1 (proj2 (proj2 (no_delivery_after_disconnect env1 default_args busy_events
                                interval_events)) H)).
Defined.

(** The same share is accepted before the disconnect and turned down
    as unauthorized after it, the job being still the current one. *)
Example share_before_and_after_disconnect :
  trace (run [EvSubmit (share 1 "J1") (RpcResult (VBool true));
              EvDisconnect;
              EvSubmit (share 1 "J1") (RpcResult (VBool true))] busy_world) =
  [ERpc "mining.submit"
     [VStr "alice"; VStr "J1"; VStr "0001"; VStr "504e86ed"; VStr "b2957c02"];
   EShareReply 1 Accepted;
   ELog INFO "Disconnected from Stratum pool at %s:%d"
     [VStr "stratum.bitcoin.cz"; VInt 3333];
   EAddCallback OnDisconnect CbOnDisconnect;
   EDisconnectAll;
   EClearAuthorizations;
   EReconnect;
   EShareReply 1 (Rejected "unauthorized")].
Proof. vm_compute. reflexivity. Qed.

(** *** Start-up *)

Lemma split_nonempty (sep : ascii) (s : string) : Py.split sep s <> [].
Proof.
  destruct s as [| a rest]; cbn; [discriminate |].
  destruct (Ascii.eqb a sep); [discriminate |].
  destruct (Py.split sep rest); discriminate.
Qed.

Lemma split_at_separator (sep : ascii) (h r : string) :
  Py.str_contains sep h = false ->
  Py.split sep (h ++ String sep r) = h :: Py.split sep r.
Proof.
  induction h as [| a h IH]; simpl.
  - intros _. rewrite Ascii.eqb_refl. reflexivity.
  - destruct (Ascii.eqb a sep); [discriminate |].
    intros H. rewrite (IH H). reflexivity.
Qed.

Lemma app_separator_truthy (sep : ascii) (h r : string) :
  Py.str_truthy (h ++ String sep r) = true.
Proof. destruct h; reflexivity. Qed.

Lemma write_pid_file_effects (env : Env) (a0 : Args) :
  factories (write_pid_file env a0).2 = [] /\
  List.filter is_log (write_pid_file env a0).2 = [] /\
  pid_effects (write_pid_file env a0).2 = (write_pid_file env a0).2.
Proof.
  unfold write_pid_file. destruct (Py.opt_truthy (pid_file a0)); [| repeat split].
  destruct (pid_file_io env (default "" (pid_file a0))); repeat split.
Qed.

Lemma main_begin_pid_fails (env : Env) (a0 : Args) (e : Py.exn) :
  (write_pid_file env a0).1 = Some e ->
  main_begin env a0 = (Raised e, (write_pid_file env a0).2).
Proof.
  intros H. unfold main_begin.
  destruct (write_pid_file env a0) as [[e0 |] t_pid]; cbn in H; [| discriminate].
  injection H as ->. reflexivity.
Qed.

Lemma main_begin_factory (env : Env) (a0 : Args) (prx : value) :
  (write_pid_file env a0).1 = None ->
  proxy_value env (configure_tor a0) = inl prx ->
  (main_begin env a0).1 = Returned (initial_world env (configure_tor a0)) /\
  factories (main_begin env a0).2 =
    [(host (configure_tor a0), port (configure_tor a0), verbose a0, prx)].
Proof.
  intros Hpid H. unfold main_begin.
  destruct (write_pid_file_effects env a0) as (Hf & _ & _).
  destruct (write_pid_file env a0) as [[e0 |] t_pid]; cbn in Hpid, Hf; [discriminate |].
  rewrite H. cbn [fst snd]. split; [reflexivity |].
  assert (Hv : verbose (configure_tor a0) = verbose a0).
  { unfold configure_tor. destruct (tor a0); reflexivity. }
  rewrite Hv. unfold factories in *. rewrite !omap_app, Hf.
  destruct (tor a0); destruct (Py.str_truthy (proxy (configure_tor a0))); reflexivity.
Qed.

Lemma main_begin_bad_port (env : Env) (a0 : Args) (e : Py.exn) :
  (write_pid_file env a0).1 = None ->
  proxy_value env (configure_tor a0) = inr e ->
  (main_begin env a0).1 = Raised e /\
  factories (main_begin env a0).2 = [] /\
  Forall (fun x => is_log x = true \/ x ∈ (write_pid_file env a0).2)
    (main_begin env a0).2.
Proof.
  intros Hpid H. unfold main_begin.
  destruct (write_pid_file_effects env a0) as (Hf & _ & _).
  destruct (write_pid_file env a0) as [[e0 |] t_pid]; cbn in Hpid, Hf; [discriminate |].
  rewrite H. cbn [fst snd]. split; [reflexivity |]. split.
  - unfold factories in *. rewrite !omap_app, Hf.
    destruct (tor a0); reflexivity.
  - apply Forall_app. split.
    + apply Forall_forall. intros x Hx. right. exact Hx.
    + destruct (tor a0); cbn;
        repeat (apply Forall_cons_2; [left; reflexivity |]); apply Forall_nil_2.
Qed.

Lemma main_begin_factories_debug (env : Env) (a0 : Args) :
  Forall (fun x => x.1.2 = verbose a0) (factories (main_begin env a0).2).
Proof.
  destruct (write_pid_file env a0).1 as [e |] eqn:Hpid.
  - rewrite (main_begin_pid_fails env a0 e Hpid). cbn [snd].
    rewrite (proj1 (write_pid_file_effects env a0)). constructor.
  - destruct (proxy_value env (configure_tor a0)) as [prx | e] eqn:Hp.
    + rewrite (proj2 (main_begin_factory env a0 prx Hpid Hp)). repeat constructor.
    + rewrite (proj1 (proj2 (main_begin_bad_port env a0 e Hpid Hp))). constructor.
Qed.

(** Claim C9, as stated, fails: with [--tor] the [--socks] string is
    overwritten before it is split, so a string without [':'] ends up
    as the well-formed pair [('127.0.0.1', 9050)]. *)
Lemma tor_ignores_socks_string : ~ socks_claim env1 tor_args.
Proof. intros H. specialize (H eq_refl). vm_compute in H. discriminate. Qed.

(** Claim C9, amended: for a non-empty [--socks] string without [':']
    given without [--tor], the value [main] binds to [proxy] is the
    pair of the one-element list [split] returned and 9050, which is
    not a host and port pair, and once past the pid file [main] hands
    it to the factory; without [--tor] a host and port pair comes out
    only of a string with a [':'].  With [--tor] the pair is
    [('127.0.0.1', 9050)] whatever the string, and without [--tor] an
    empty string gives [None]. *)
Theorem socks_without_port_malformed (env : Env) (a0 : Args) :
  let a := configure_tor a0 in
  let bad := VTuple [VList [VStr (proxy a0)]; VInt 9050] in
  (tor a0 = false /\ Py.str_truthy (proxy a0) = true /\
   Py.str_contains ":" (proxy a0) = false ->
   proxy_value env a = inl bad /\
   host_port_pair bad = false /\
   ((write_pid_file env a0).1 = None ->
    (main_begin env a0).1 = Returned (initial_world env a) /\
    factories (main_begin env a0).2 = [(host a0, port a0, verbose a0, bad)])) /\
  (tor a0 = false ->
   forall v, proxy_value env a = inl v -> host_port_pair v = true ->
             Py.str_contains ":" (proxy a0) = true) /\
  (tor a0 = true ->
   proxy_value env a = inl (VTuple [VStr "127.0.0.1"; VInt 9050])) /\
  (tor a0 = false -> proxy a0 = "" -> proxy_value env a = inl VNone).
Proof.
  intros a bad. subst a. unfold configure_tor.
  destruct (tor a0) eqn:Htor.
  - split; [intros (H & _); discriminate |].
    split; [intros H; discriminate |].
    split; [intros _; reflexivity | intros H; discriminate].
  - assert (Ha : configure_tor a0 = a0) by (unfold configure_tor; rewrite Htor; reflexivity).
    split; [| split; [| split]].
    + intros (_ & Htruthy & Hcolon).
      assert (Hv : proxy_value env a0 = inl bad).
      { unfold proxy_value. rewrite Htruthy.
        rewrite (split_without_separator _ _ Hcolon). reflexivity. }
      split; [exact Hv |]. split; [reflexivity |].
      intros Hpid. rewrite <- Ha in Hv.
      destruct (main_begin_factory env a0 bad Hpid Hv) as [Hm Hf].
      rewrite Ha in Hm, Hf. split; assumption.
    + intros _ v Hv Hpair. unfold proxy_value in Hv.
      destruct (Py.str_truthy (proxy a0)); [| injection Hv as <-; discriminate].
      destruct (length (Py.split ":" (proxy a0)) <? 2)%nat eqn:Hlen.
      * injection Hv as <-. discriminate.
      * apply split_length_separator, Hlen.
    + intros H; discriminate.
    + intros _ Hempty. unfold proxy_value. rewrite Hempty. reflexivity.
Qed.

Lemma socks_without_port_malformed_witness :
  (tor (socks_args "localhost") = false /\
   Py.str_truthy (proxy (socks_args "localhost")) = true /\
   Py.str_contains ":" (proxy (socks_args "localhost")) = false) /\
  proxy_value env1 (configure_tor (socks_args "localhost")) =
    inl (VTuple [VList [VStr "localhost"]; VInt 9050]).
Proof.
  split; [repeat split |].
  apply (socks_without_port_malformed env1 (socks_args "localhost")).
  repeat split.
Defined.

Example proxy_value_colon :
  proxy_value env1 (socks_args "localhost:1080") =
  inl (VTuple [VStr "localhost"; VInt 1080]).
Proof. reflexivity. Qed.

Example proxy_value_bad_port :
  proxy_value env1 (socks_args "localhost:socks") =
  inr (Py.ValueError "invalid literal for int() with base 10: 'socks'").
Proof. reflexivity. Qed.

(** X1: with [--tor], whatever pool address and [--socks] string were
    given, once past the pid file [main] starts up and creates exactly
    one factory, for [pool57wkuu5yuhzb.onion:3333] through the proxy
    [('127.0.0.1', 9050)]. *)
Theorem tor_overrides_pool_and_proxy (env : Env) (a0 : Args) :
  tor a0 = true ->
  (write_pid_file env a0).1 = None ->
  (main_begin env a0).1 = Returned (initial_world env (configure_tor a0)) /\
  factories (main_begin env a0).2 =
    [("pool57wkuu5yuhzb.onion", 3333, verbose a0,
      VTuple [VStr "127.0.0.1"; VInt 9050])].
Proof.
  intros Htor Hpid.
  assert (Hv : proxy_value env (configure_tor a0) =
               inl (VTuple [VStr "127.0.0.1"; VInt 9050])).
  { unfold configure_tor. rewrite Htor. reflexivity. }
  destruct (main_begin_factory env a0 _ Hpid Hv) as [Hm Hf].
  split; [exact Hm |]. rewrite Hf. unfold configure_tor. rewrite Htor. reflexivity.
Qed.

Lemma tor_overrides_pool_and_proxy_witness :
  (tor tor_args = true /\ (write_pid_file env1 tor_args).1 = None) /\
  factories (main_begin env1 tor_args).2 =
    [("pool57wkuu5yuhzb.onion", 3333, false, VTuple [VStr "127.0.0.1"; VInt 9050])].
Proof.
  split; [split; reflexivity |].
  apply (tor_overrides_pool_and_proxy env1 tor_args); reflexivity.
Defined.

(** X2: [main] fails at start-up in two cases only.  An error on the
    pid file ends it with that error before anything is logged.  Past
    the pid file, a proxy string whose second [':']-separated part
    [int] rejects ends it with the [ValueError] of [int] for that
    part, after log lines only.  No factory is created in either case;
    in every other case [main] reaches its [yield]. *)
Theorem startup_failures (env : Env) (a0 : Args) :
  let a := configure_tor a0 in
  (forall e, (write_pid_file env a0).1 = Some e ->
     main_begin env a0 = (Raised e, (write_pid_file env a0).2) /\
     List.filter is_log (main_begin env a0).2 = [] /\
     factories (main_begin env a0).2 = []) /\
  (forall p0 p1 rest,
     (write_pid_file env a0).1 = None ->
     Py.str_truthy (proxy a) = true ->
     Py.split ":" (proxy a) = p0 :: p1 :: rest ->
     Py.int p1 = None ->
     (main_begin env a0).1 = Raised (Py.ValueError (invalid_literal env p1)) /\
     factories (main_begin env a0).2 = [] /\
     Forall (fun x => is_log x = true \/ x ∈ (write_pid_file env a0).2)
       (main_begin env a0).2) /\
  ((write_pid_file env a0).1 = None ->
   ~ (Py.str_truthy (proxy a) = true /\
      exists p0 p1 rest,
        Py.split ":" (proxy a) = p0 :: p1 :: rest /\ Py.int p1 = None) ->
   (main_begin env a0).1 = Returned (initial_world env a)).
Proof.
  intros a. split; [| split].
  - intros e Hpid. rewrite (main_begin_pid_fails env a0 e Hpid). cbn [snd].
    destruct (write_pid_file_effects env a0) as (Hf & Hl & _). repeat split; assumption.
  - intros p0 p1 rest Hpid Htruthy Hsplit Hint.
    apply main_begin_bad_port; [exact Hpid |].
    fold a. unfold proxy_value. rewrite Htruthy, Hsplit. cbn. rewrite Hint. reflexivity.
  - intros Hpid Hnot.
    destruct (proxy_value env a) as [prx | e] eqn:Hp.
    + exact (proj1 (main_begin_factory env a0 prx Hpid Hp)).
    + exfalso. apply Hnot. unfold proxy_value in Hp.
      destruct (Py.str_truthy (proxy a)); [| discriminate].
      split; [reflexivity |].
      destruct (Py.split ":" (proxy a)) as [| p0 [| p1 rest]] eqn:Hsplit;
        cbn in Hp; try discriminate.
      destruct (Py.int p1) eqn:Hint; [discriminate |]. eauto.
Qed.

Lemma startup_failures_witness :
  ((write_pid_file env1 (socks_args "localhost:socks")).1 = None /\
   Py.str_truthy (proxy (configure_tor (socks_args "localhost:socks"))) = true /\
   Py.split ":" (proxy (configure_tor (socks_args "localhost:socks")))
     = ["localhost"; "socks"] /\
   Py.int "socks" = None) /\
  (main_begin env1 (socks_args "localhost:socks")).1 =
    Raised (Py.ValueError "invalid literal for int() with base 10: 'socks'").
Proof.
  split; [repeat split |].
  apply (proj1 (proj2 (startup_failures env1 (socks_args "localhost:socks")))
           "localhost" "socks" []); reflexivity.
Defined.

(** X3: without [--tor] and once past the pid file, a [--socks] string
    of the form [host:port] makes [main] create the factory with the
    proxy [(host, int(port))], the host being the text before the
    first [':']; anything after a second [':'] is ignored. *)
Theorem proxy_host_and_port (env : Env) (a0 : Args) (h p junk : string) (n : Z) :
  tor a0 = false ->
  (write_pid_file env a0).1 = None ->
  Py.str_contains ":" h = false ->
  Py.str_contains ":" p = false ->
  Py.int p = Some n ->
  proxy a0 = h ++ String ":" p \/ proxy a0 = h ++ String ":" (p ++ String ":" junk) ->
  factories (main_begin env a0).2 =
    [(host a0, port a0, verbose a0, VTuple [VStr h; VInt n])].
Proof.
  intros Htor Hpid Hh Hp Hint Hproxy.
  assert (Ha : configure_tor a0 = a0) by (unfold configure_tor; rewrite Htor; reflexivity).
  assert (Hv : proxy_value env (configure_tor a0) = inl (VTuple [VStr h; VInt n])).
  { rewrite Ha. unfold proxy_value.
    destruct Hproxy as [-> | ->];
      rewrite app_separator_truthy, (split_at_separator _ _ _ Hh).
    - rewrite (split_without_separator _ _ Hp). cbn. rewrite Hint. reflexivity.
    - rewrite (split_at_separator _ _ _ Hp). cbn. rewrite Hint. reflexivity. }
  rewrite (proj2 (main_begin_factory env a0 _ Hpid Hv)). rewrite Ha. reflexivity.
Qed.

Lemma proxy_host_and_port_witness :
  (tor (socks_args "localhost:1080:extra") = false /\
   (write_pid_file env1 (socks_args "localhost:1080:extra")).1 = None /\
   Py.str_contains ":" "localhost" = false /\
   Py.str_contains ":" "1080" = false /\
   Py.int "1080" = Some 1080) /\
  factories (main_begin env1 (socks_args "localhost:1080:extra")).2 =
    [("stratum.bitcoin.cz", 3333, false, VTuple [VStr "localhost"; VInt 1080])].
Proof.
  split; [repeat split |].
  apply (proxy_host_and_port env1 (socks_args "localhost:1080:extra")
           "localhost" "1080" "extra" 1080); try reflexivity.
  right. reflexivity.
Defined.

(** X4: [main] touches the pid file only when [args.pid_file] is a
    non-empty string, and then first of all: when all goes well the
    open, the write of the process id and the close are its first
    three effects and the only ones on the file; when the open fails
    [main] ends with that error having done nothing at all. *)
Theorem pid_file_written_first (env : Env) (a0 : Args) :
  let path := default "" (pid_file a0) in
  (Py.opt_truthy (pid_file a0) = false -> pid_effects (main_begin env a0).2 = []) /\
  (Py.opt_truthy (pid_file a0) = true -> pid_file_io env path = IoOk ->
   take 3 (main_begin env a0).2 =
     [EFileOpen path; EWritePid path (getpid env); EFileClose path] /\
   pid_effects (main_begin env a0).2 =
     [EFileOpen path; EWritePid path (getpid env); EFileClose path]) /\
  (forall e, Py.opt_truthy (pid_file a0) = true -> pid_file_io env path = IoOpenFails e ->
   main_begin env a0 = (Raised e, [])).
Proof.
  intros path. subst path. unfold main_begin, write_pid_file.
  split; [| split].
  - intros ->.
    destruct (proxy_value env (configure_tor a0)); cbn [snd];
      destruct (tor a0); try destruct (Py.str_truthy (proxy (configure_tor a0)));
      reflexivity.
  - intros -> ->.
    destruct (proxy_value env (configure_tor a0)); cbn [snd];
      destruct (tor a0); try destruct (Py.str_truthy (proxy (configure_tor a0)));
      split; reflexivity.
  - intros e -> ->. reflexivity.
Qed.

Lemma pid_file_written_first_witness :
  (Py.opt_truthy (pid_file (pid_args "/var/run/proxy.pid")) = true /\
   pid_file_io env_readonly "/var/run/proxy.pid" =
     IoOpenFails (Py.IOError "Permission denied")) /\
  main_begin env_readonly (pid_args "/var/run/proxy.pid") =
    (Raised (Py.IOError "Permission denied"), []).
Proof.
  split; [split; reflexivity |].
  apply (proj2 (proj2 (pid_file_written_first env_readonly
                         (pid_args "/var/run/proxy.pid")))); reflexivity.
Defined.

(** X5: [--quiet] wins over [--verbose] for the log settings (no debug,
    level WARNING), yet every factory [main] creates still gets
    [debug = args.verbose]. *)
Theorem quiet_wins_but_factory_debug_follows_verbose
    (env : Env) (a0 : Args) (s0 : Settings) :
  quiet a0 = true ->
  DEBUG (configure_settings a0 s0) = false /\
  LOGLEVEL (configure_settings a0 s0) = "WARNING" /\
  Forall (fun x => x.1.2 = verbose a0) (factories (main_begin env a0).2).
Proof.
  intros Hq. unfold configure_settings. rewrite Hq.
  split; [destruct (Py.opt_truthy (log_file a0)); reflexivity |].
  split; [destruct (Py.opt_truthy (log_file a0)); reflexivity |].
  apply main_begin_factories_debug.
Qed.

Lemma quiet_wins_but_factory_debug_follows_verbose_witness :
  quiet quiet_verbose_args = true /\
  DEBUG (configure_settings quiet_verbose_args
           {| DEBUG := true; LOGLEVEL := "DEBUG"; LOGFILE := None |}) = false /\
  factories (main_begin env1 quiet_verbose_args).2 =
    [("stratum.bitcoin.cz", 3333, true, VNone)].
Proof.
  split; [reflexivity |]. split; [| reflexivity].
  apply (quiet_wins_but_factory_debug_follows_verbose env1). reflexivity.
Defined.

Lemma on_connect_resume_raises (w : World) (reply : RpcOutcome) :
  completes reply = false ->
  exists e, on_connect_resume reply w = MkRun (Raised e) w [].
Proof.
  intros H. unfold on_connect_resume, await, unpack3.
  destruct reply as [v | e]; cbn in H.
  - rewrite run_bind_ret.
    destruct (Py.unpack3 v) as [t | e]; [discriminate |]. exists e. reflexivity.
  - exists e. reflexivity.
Qed.

Lemma run_bind_capture {A B : Type} (m : M A) (k : Outcome A -> M B) (w : World) :
  (capture m ≫= k) w =
  MkRun (outcome (k (outcome (m w)) (final (m w))))
        (final (k (outcome (m w)) (final (m w))))
        (trace (m w) ++ trace (k (outcome (m w)) (final (m w))))%list.
Proof. apply run_bind_eq. reflexivity. Qed.

(** X6: [main] opens the miners' listener only if the first handshake
    went through: then exactly when [args.stratum_port] is positive and
    [listenTCP] does not fail, on the configured port and interface,
    and it logs its banner whenever it gets that far, so also for a
    port that is not positive, where nothing listens.  If the first
    subscribe fails, the failure ends [main]: no listener is opened
    and no banner logged, while [on_connect] stays hooked for the
    connect events to come. *)
Theorem listener_only_after_first_handshake
    (env : Env) (a : Args) (reply : RpcOutcome) (listen : option Py.exn) :
  let r := first_session reply listen (initial_world env a) in
  let listen_ok := if listen is None then true else false in
  listen_calls (trace r) =
    (if completes reply && (0 <? stratum_port a)%Z && listen_ok
     then [(stratum_port a, stratum_host a)] else []) /\
  length (List.filter is_banner_rule (trace r)) =
    (if completes reply && (negb (0 <? stratum_port a)%Z || listen_ok)
     then 2 else 0)%nat /\
  (completes reply = false -> exists e, outcome r = Raised e) /\
  hooked (final r).
Proof.
  intros r listen_ok. subst r listen_ok.
  pose proof (initial_world_hooked env a) as Hw.
  unfold first_session.
  rewrite (run_bind_eq _ _ _ _ _ _ (connect_event_hooked _ Hw)).
  cbn [outcome final trace].
  set (w1 := final (on_connect_begin _)).
  assert (Hw1 : hooked w1) by (split; reflexivity).
  assert (Ha : args w1 = a) by reflexivity.
  rewrite run_bind_capture.
  destruct (completes reply) eqn:Hc.
  - destruct reply as [v | e]; [| discriminate].
    cbn in Hc. destruct (Py.unpack3 v) as [[[d e1] e2s] |] eqn:Hv; [| discriminate].
    rewrite (on_connect_resume_ok w1 v d e1 e2s Hv). cbn [outcome final trace].
    rewrite Ha. unfold main_resume. rewrite run_bind_gets.
    change (args (installed (e1, e2s) w1)) with a.
    assert (Hi : hooked (installed (e1, e2s) w1)) by exact Hw1.
    revert Hi. generalize (installed (e1, e2s) w1). intros w2 Hw2.
    destruct a as [h pt sh sp cs cu cp bc px tr vb qt pf lf].
    cbn [stratum_port stratum_host custom_user custom_password andb].
    unfold authorize_trace. cbn [custom_user custom_password].
    destruct (0 <? sp)%Z; destruct listen as [e |];
      destruct (String.eqb sh "0.0.0.0");
      destruct cu as [[| c u] |]; cbn;
      (split; [reflexivity |]; split; [reflexivity |];
       split; [discriminate | exact Hw2]).
  - destruct (on_connect_resume_raises w1 reply Hc) as [e He].
    rewrite He. cbn [outcome final trace main_resume raise app].
    split; [reflexivity |]. split; [reflexivity |].
    split; [intros _; exists e; reflexivity | exact Hw1].
Qed.

Lemma listener_only_after_first_handshake_witness :
  completes (RpcFailure (Py.RemoteError "timeout")) = false /\
  exists e,
    outcome (first_session (RpcFailure (Py.RemoteError "timeout")) None
               (initial_world env1 default_args)) = Raised e.
Proof.
  split; [reflexivity |].
  apply (listener_only_after_first_handshake env1 default_args
           (RpcFailure (Py.RemoteError "timeout")) None).
  reflexivity.
Defined.

(** With the defaults and a first handshake that goes through, the
    listener is opened on all interfaces, port 3333. *)
Example first_session_listens :
  listen_calls
    (trace (first_session reply1 None (initial_world env1 default_args))) =
  [(3333, "0.0.0.0")].
Proof. vm_compute. reflexivity. Qed.

(** *** More on the handshake *)

(** X7: when the subscribe call fails or its reply cannot be unpacked,
    [on_connect] ends with that exception and installs nothing: the
    job registry and the listener are as before the connect event and
    no [workers.authorize] call is made.  The authorizations are
    cleared all the same, and the handler is hooked for the next
    connect event. *)
Theorem failed_handshake_installs_nothing (env : Env) (a : Args) (evs : list Event)
    (reply : RpcOutcome) :
  completes reply = false ->
  let w := final (run evs (initial_world env a)) in
  let r := run [EvConnect; EvSubscribeReply reply] w in
  (exists e, outcome (on_connect reply w) = Raised e) /\
  trace r = on_connect_begin_trace w /\
  job_registry (final r) = job_registry w /\
  listener (final r) = listener w /\
  all_unauthorized (final r) /\
  hooked (final r).
Proof.
  intros Hc w r.
  assert (Hw : hooked w).
  { exact (keeps_final _ _ _ _ (run_hooked evs) (initial_world_hooked env a)). }
  destruct (on_connect_resume_fails (final (step EvConnect w)) reply Hc) as [Hf Ht].
  assert (Hr : run [EvConnect; EvSubscribeReply reply] w =
               MkRun (Returned tt) (final (step EvConnect w)) (on_connect_begin_trace w)).
  { cbn [run]. rewrite (run_bind_eq _ _ _ _ _ _ (connect_event_hooked w Hw)).
    cbn [step] in Hf, Ht. rewrite (connect_event_hooked w Hw) in Hf, Ht.
    cbn [final] in Hf, Ht.
    rewrite run_bind_eq with (a := tt)
      (w1 := final (on_connect_resume reply _)) (t1 := trace (on_connect_resume reply _))
      by reflexivity.
    cbn [outcome final trace mret M_ret]. rewrite Hf, Ht.
    cbn [step]. rewrite (connect_event_hooked w Hw). cbn [final].
    rewrite !app_nil_r. reflexivity. }
  subst r. rewrite Hr. cbn [final trace step].
  rewrite (connect_event_hooked w Hw). cbn [final].
  split.
  - unfold on_connect. unfold mbind, M_bind.
    destruct (on_connect_begin w) as [[[] | e0] w1 t1] eqn:Hb.
    + cbn. unfold on_connect_resume, await, unpack3.
      destruct reply as [v | e]; cbn in Hc.
      * rewrite run_bind_ret.
        destruct (Py.unpack3 v) as [t | e]; [discriminate |]. eauto.
      * eauto.
    + eauto.
  - split; [reflexivity |]. split; [reflexivity |]. split; [reflexivity |].
    split; [apply clear_authorizations_all |].
    destruct Hw as [_ Hd]. split; [reflexivity | exact Hd].
Qed.

Lemma failed_handshake_installs_nothing_witness :
  completes (RpcResult (VList [VList []; VStr "08000002"])) = false /\
  job_registry
    (final (run [EvConnect; EvSubscribeReply (RpcResult (VList [VList []; VStr "08000002"]))]
              (final (run busy_events (initial_world env1 default_args))))) =
  job_registry (final (run busy_events (initial_world env1 default_args))).
Proof.
  split; [reflexivity |].
  apply (failed_handshake_installs_nothing env1 default_args busy_events
           (RpcResult (VList [VList []; VStr "08000002"]))).
  reflexivity.
Defined.

(** X8: of the subscribe reply only the second and third item count:
    the first item and anything after the third change nothing in what
    the resumed handler does, for a list as for a tuple. *)
Theorem handshake_reads_items_two_and_three
    (w : World) (d d' e1 e2s : value) (more : list value) :
  on_connect_resume (RpcResult (VList (d :: e1 :: e2s :: more))) w =
    on_connect_resume (RpcResult (VList [d'; e1; e2s])) w /\
  on_connect_resume (RpcResult (VTuple (d :: e1 :: e2s :: more))) w =
    on_connect_resume (RpcResult (VList [d'; e1; e2s])) w /\
  extranonce (job_registry
    (final (on_connect_resume (RpcResult (VList (d :: e1 :: e2s :: more))) w))) =
    Some (e1, e2s).
Proof.
  rewrite (on_connect_resume_ok w (VList (d :: e1 :: e2s :: more)) d e1 e2s eq_refl).
  rewrite (on_connect_resume_ok w (VTuple (d :: e1 :: e2s :: more)) d e1 e2s eq_refl).
  rewrite (on_connect_resume_ok w (VList [d'; e1; e2s]) d' e1 e2s eq_refl).
  repeat split.
Qed.

(** *** One handshake per connect, one sweep per disconnect *)

Section Returns.
Context {A B : Type}.

Lemma returns_bind (m : M A) (k : A -> M B) :
  returns m -> (forall a, returns (k a)) -> returns (m ≫= k).
Proof.
  intros Hm Hk w. destruct (Hm w) as [a Ha].
  unfold mbind, M_bind. destruct (m w) as [[a1 | e] w1 t1]; cbn in *; [| discriminate].
  destruct (Hk a1 w1) as [b Hb]. eauto.
Qed.

Lemma returns_ret (a : A) : returns (mret a).
Proof. intros w. exists a. reflexivity. Qed.

Lemma returns_gets (g : World -> A) : returns (gets g).
Proof. intros w. exists (g w). reflexivity. Qed.

Lemma returns_attempt (m : M A) : returns (attempt m).
Proof. intros w. exists tt. reflexivity. Qed.

Lemma trace_bind (m : M A) (k : A -> M B) (w : World) (a : A) :
  outcome (m w) = Returned a ->
  trace ((m ≫= k) w) = (trace (m w) ++ trace (k a (final (m w))))%list /\
  final ((m ≫= k) w) = final (k a (final (m w))).
Proof.
  intros H. unfold mbind, M_bind.
  destruct (m w) as [[a1 | e] w1 t1]; cbn in *; [| discriminate].
  injection H as ->. split; reflexivity.
Qed.
End Returns.

Lemma returns_emit (e : Effect) : returns (emit e).
Proof. intros w. exists tt. reflexivity. Qed.

Lemma returns_modify (g : World -> World) : returns (modify g).
Proof. intros w. exists tt. reflexivity. Qed.

Ltac returns_step :=
  lazymatch goal with
  | |- returns (_ ≫= _) => apply returns_bind; [| intros ?]
  | |- returns (mret _) => apply returns_ret
  | |- returns (gets _) => apply returns_gets
  | |- returns (attempt _) => apply returns_attempt
  | |- returns (emit _) => apply returns_emit
  | |- returns (log _ _ _) => apply returns_emit
  | |- returns (modify _) => apply returns_modify
  | |- returns (match ?x with _ => _ end) => destruct x
  end.

Lemma broadcast_returns j cids : returns (broadcast j cids).
Proof.
  induction cids as [| cid rest IH]; cbn [broadcast].
  - apply returns_ret.
  - apply returns_bind; [apply returns_emit | intros _; exact IH].
Qed.

Lemma step_returns (e : Event) (w : World) : outcome (step e w) = Returned tt.
Proof.
  assert (H : returns (step e)).
  { destruct e; cbn [step].
    - unfold connect_event, take_callbacks. repeat returns_step.
    - apply returns_attempt.
    - unfold disconnect_event, take_callbacks. repeat returns_step.
    - unfold on_shutdown. repeat returns_step.
    - unfold on_job_notify. repeat first [apply broadcast_returns | returns_step].
    - apply returns_attempt.
    - apply returns_attempt.
    - unfold worker_disconnect. repeat returns_step.
    - apply returns_attempt. }
  destruct (H w) as [[] Ha]. exact Ha.
Qed.

Lemma run_cons (e : Event) (rest : list Event) (w : World) :
  trace (run (e :: rest) w) =
    (trace (step e w) ++ trace (run rest (final (step e w))))%list /\
  final (run (e :: rest) w) = final (run rest (final (step e w))).
Proof. cbn [run]. apply trace_bind with (a := tt). apply step_returns. Qed.

Lemma plain_counts (t : list Effect) :
  Forall plain t ->
  length (List.filter is_subscribe_call t) = 0%nat /\
  length (List.filter is_disconnect_all t) = 0%nat.
Proof.
  induction 1 as [| e t [Hs Hd] _ [IHs IHd]]; cbn; [split; reflexivity |].
  rewrite Hs, Hd. split; assumption.
Qed.

Ltac plain_side := first [split; reflexivity | untouched].

Lemma broadcast_plain j cids : keeps hooked plain (broadcast j cids).
Proof.
  induction cids as [| cid rest IH]; cbn [broadcast].
  - apply keeps_ret.
  - apply keeps_bind; [apply keeps_emit; split; reflexivity | intros _; exact IH].
Qed.

Lemma step_counts (e : Event) (w : World) :
  hooked w ->
  hooked (final (step e w)) /\
  length (List.filter is_subscribe_call (trace (step e w))) =
    (if is_connect_event e then 1 else 0)%nat /\
  length (List.filter is_disconnect_all (trace (step e w))) =
    (if is_disconnect_event e then 1 else 0)%nat.
Proof.
  intros Hw.
  split; [exact (keeps_final _ _ _ _ (step_hooked e) Hw) |].
  assert (Hplain : keeps hooked plain (step e) ->
            length (List.filter is_subscribe_call (trace (step e w))) = 0%nat /\
            length (List.filter is_disconnect_all (trace (step e w))) = 0%nat).
  { intros H. apply plain_counts. exact (keeps_trace _ _ _ _ H Hw). }
  destruct e; cbn [is_connect_event is_disconnect_event].
  - cbn [step]. rewrite (connect_event_hooked w Hw). split; reflexivity.
  - apply Hplain. cbn [step].
    unfold on_connect_resume, job_registry_set_extranonce,
      StratumProxyService_set_extranonce, workers_authorize.
    keeps_auto; plain_side.
  - cbn [step]. rewrite (disconnect_event_hooked w Hw). cbn [trace].
    destruct (Factory.is_reconnecting (f w)); split; reflexivity.
  - apply Hplain. cbn [step]. unfold on_shutdown. keeps_auto; plain_side.
  - apply Hplain. cbn [step]. unfold on_job_notify.
    keeps_auto; try apply broadcast_plain; plain_side.
  - apply Hplain. cbn [step]. unfold worker_subscribe. keeps_auto; plain_side.
  - apply Hplain. cbn [step]. unfold worker_authorize. keeps_auto; plain_side.
  - apply Hplain. cbn [step]. unfold worker_disconnect. keeps_auto; plain_side.
  - apply Hplain. cbn [step]. unfold submit. keeps_auto; plain_side.
Qed.

Lemma run_counts (evs : list Event) (w : World) :
  hooked w ->
  length (List.filter is_subscribe_call (trace (run evs w))) =
    length (List.filter is_connect_event evs) /\
  length (List.filter is_disconnect_all (trace (run evs w))) =
    length (List.filter is_disconnect_event evs).
Proof.
  revert w. induction evs as [| e rest IH]; intros w Hw; [split; reflexivity |].
  destruct (run_cons e rest w) as [-> _].
  destruct (step_counts e w Hw) as (Hw1 & Hs & Hd).
  destruct (IH _ Hw1) as [IHs IHd].
  rewrite !List.filter_app, !length_app, Hs, Hd, IHs, IHd. cbn [List.filter].
  destruct e; split; reflexivity.
Qed.

(** X9: from start-up on, whatever the events and their order, the
    proxy has issued exactly one [mining.subscribe] call per connect
    event and swept the subscriptions with [disconnect_all] exactly
    once per disconnect event: the self-hooking handlers neither pile
    up nor get lost. *)
Theorem one_handshake_per_connect (env : Env) (a : Args) (evs : list Event) :
  let t := trace (run evs (initial_world env a)) in
  length (List.filter is_subscribe_call t) = length (List.filter is_connect_event evs) /\
  length (List.filter is_disconnect_all t) = length (List.filter is_disconnect_event evs).
Proof. apply run_counts, initial_world_hooked. Qed.

(** *** The update check *)

Module UpdatesFacts.
Import Updates.

Lemma ticks_app (V : string) (p1 p2 : list (option string)) (pending : list (Z * Timer)) :
  ticks V (p1 ++ p2) pending =
  (((ticks V p1 pending).1 ++ (ticks V p2 (ticks V p1 pending).2).1)%list,
   (ticks V p2 (ticks V p1 pending).2).2).
Proof.
  revert pending. induction p1 as [| page more IH]; intros pending.
  - cbn. destruct (ticks V p2 pending); reflexivity.
  - cbn [ticks app]. destruct (tick V page pending) as [acts pending1].
    rewrite IH. destruct (ticks V more pending1) as [acts1 pending2]. cbn.
    destruct (ticks V p2 pending2) as [acts2 pending3]. cbn.
    rewrite app_assoc. reflexivity.
Qed.

Lemma ticks_checking (V : string) (pages : list (option string)) (d : Z) :
  Forall (fun page => detects V page = false) pages ->
  fetches (ticks V pages [(d, TestUpdate)]).1 = length pages /\
  deprecation_warnings (ticks V pages [(d, TestUpdate)]).1 = 0%nat /\
  (ticks V pages [(d, TestUpdate)]).2 =
    [(if pages is [] then d else 3600 * 24, TestUpdate)].
Proof.
  intros H. revert d. induction H as [| page more Hpage _ IH]; intros d.
  - repeat split.
  - cbn [ticks tick run_timer].
    assert (Hs : scheduled (test_update V page) = [(3600 * 24, TestUpdate)] /\
                 fetches (test_update V page) = 1%nat /\
                 deprecation_warnings (test_update V page) = 0%nat).
    { unfold test_update. destruct page as [body |]; cbn in Hpage.
      - apply negb_false_iff in Hpage. rewrite Hpage. repeat split.
      - repeat split. }
    destruct Hs as (Hs & Hf & Hw). rewrite Hs. cbn [app].
    destruct (IH (3600 * 24)) as (IHf & IHw & IHp).
    destruct (ticks V more [(3600 * 24, TestUpdate)]) as [acts pending] eqn:Ht.
    cbn [fst snd] in *. unfold fetches, deprecation_warnings in *.
    rewrite !List.filter_app, !length_app, Hf, Hw, IHf, IHw, IHp.
    repeat split. destruct more; reflexivity.
Qed.

Lemma ticks_warning (V : string) (pages : list (option string)) (d : Z) :
  fetches (ticks V pages [(d, PrintDeprecationWarning)]).1 = 0%nat /\
  deprecation_warnings (ticks V pages [(d, PrintDeprecationWarning)]).1 = length pages /\
  (ticks V pages [(d, PrintDeprecationWarning)]).2 =
    [(if pages is [] then d else 30, PrintDeprecationWarning)].
Proof.
  revert d. induction pages as [| page more IH]; intros d.
  - repeat split.
  - cbn [ticks tick run_timer].
    assert (Hs : scheduled print_deprecation_warning = [(30, PrintDeprecationWarning)] /\
                 fetches print_deprecation_warning = 0%nat /\
                 deprecation_warnings print_deprecation_warning = 1%nat)
      by (repeat split).
    destruct Hs as (Hs & Hf & Hw). rewrite Hs. cbn [app].
    destruct (IH 30) as (IHf & IHw & IHp).
    destruct (ticks V more [(30, PrintDeprecationWarning)]) as [acts pending] eqn:Ht.
    cbn [fst snd] in *. unfold fetches, deprecation_warnings in *.
    rewrite !List.filter_app, !length_app, Hf, Hw, IHf, IHw, IHp.
    repeat split. destruct more; reflexivity.
Qed.

End UpdatesFacts.

(** X10: the update check turns itself off for good the first time a
    fetched page does not mention [VERSION]: up to then every
    activation fetches once, after it none ever does; the deprecation
    warning is logged at the detection and on every later activation,
    and the one timer left is the 30 second warning. *)
Theorem update_check_stops_at_detection
    (V : string) (d : Z) (before after : list (option string)) (page : option string) :
  Forall (fun p => Updates.detects V p = false) before ->
  Updates.detects V page = true ->
  let r := Updates.ticks V (before ++ page :: after) [(d, Updates.TestUpdate)] in
  Updates.fetches r.1 = S (length before) /\
  Updates.deprecation_warnings r.1 = S (length after) /\
  r.2 = [(30, Updates.PrintDeprecationWarning)].
Proof.
  intros Hbefore Hpage r. subst r. rewrite UpdatesFacts.ticks_app.
  destruct (UpdatesFacts.ticks_checking V before d Hbefore) as (Hf & Hw & Hp).
  rewrite Hp. cbn [fst snd].
  set (d1 := if before is [] then d else 3600 * 24).
  cbn [Updates.ticks Updates.tick Updates.run_timer].
  assert (Hs : Updates.test_update V page =
               [Updates.Warn "Checking for updates..."; Updates.UrlOpen Updates.GIT_URL;
                Updates.Warn "New proxy version available! Please update!";
                Updates.CallLater 30 Updates.PrintDeprecationWarning]).
  { unfold Updates.test_update. destruct page as [body |]; cbn in Hpage; [| discriminate].
    rewrite Hpage. reflexivity. }
  rewrite Hs.
  replace (Updates.scheduled
             [Updates.Warn "Checking for updates..."; Updates.UrlOpen Updates.GIT_URL;
              Updates.Warn "New proxy version available! Please update!";
              Updates.CallLater 30 Updates.PrintDeprecationWarning])
    with [(30, Updates.PrintDeprecationWarning)] by reflexivity.
  cbn [app].
  destruct (UpdatesFacts.ticks_warning V after 30) as (Af & Aw & Ap).
  destruct (Updates.ticks V after [(30, Updates.PrintDeprecationWarning)])
    as [acts pending] eqn:Ht.
  cbn [fst snd] in *. unfold Updates.fetches, Updates.deprecation_warnings in *.
  rewrite !List.filter_app, !length_app, Hf, Hw. cbn.
  rewrite Af, Aw, Ap. repeat split; [lia | destruct after; reflexivity].
Qed.

Lemma update_check_stops_at_detection_witness :
  (Forall (fun p => Updates.detects "1.5.7" p = false) [None; Some "VERSION='1.5.7'"] /\
   Updates.detects "1.5.7" (Some "VERSION='1.5.8'") = true) /\
  Updates.fetches
    (Updates.ticks "1.5.7"
       ([None; Some "VERSION='1.5.7'"] ++ Some "VERSION='1.5.8'" :: [None; None])
       [(0, Updates.TestUpdate)]).1 = 3%nat.
Proof.
  assert (H : Forall (fun p => Updates.detects "1.5.7" p = false)
                [None; Some "VERSION='1.5.7'"]).
  { repeat constructor. }
  split; [split; [exact H | reflexivity] |].
  exact (proj1 (update_check_stops_at_detection "1.5.7" 0
                  [None; Some "VERSION='1.5.7'"] [None; None]
                  (Some "VERSION='1.5.8'") H eq_refl)).
Defined.

(** X11: as long as no fetched page lacks [VERSION], failed fetches
    included, the update check keeps running: one fetch per activation,
    no deprecation warning, and exactly one timer pending, the next
    check. *)
Theorem update_check_keeps_running
    (V : string) (d : Z) (pages : list (option string)) :
  Forall (fun p => Updates.detects V p = false) pages ->
  let r := Updates.ticks V pages [(d, Updates.TestUpdate)] in
  Updates.fetches r.1 = length pages /\
  Updates.deprecation_warnings r.1 = 0%nat /\
  r.2 = [(if pages is [] then d else 3600 * 24, Updates.TestUpdate)].
Proof. intros H. exact (UpdatesFacts.ticks_checking V pages d H). Qed.

Lemma update_check_keeps_running_witness :
  Forall (fun p => Updates.detects "1.5.7" p = false) [None; Some "VERSION='1.5.7'"] /\
  (Updates.ticks "1.5.7" [None; Some "VERSION='1.5.7'"] [(0, Updates.TestUpdate)]).2 =
    [(3600 * 24, Updates.TestUpdate)].
Proof.
  assert (H : Forall (fun p => Updates.detects "1.5.7" p = false)
                [None; Some "VERSION='1.5.7'"]).
  { repeat constructor. }
  split; [exact H |].
  exact (proj2 (proj2 (update_check_keeps_running "1.5.7" 0
                         [None; Some "VERSION='1.5.7'"] H))).
Defined.
